(** * The Contour HTTPProxy source of external-dns: resource-to-endpoint synthesis

    A shallow embedding of [source/httpproxy.go].  The Go method
    [Endpoints] lists the cached HTTPProxies, filters them by annotation,
    walks the survivors and assembles DNS endpoints for each, labels them
    with the resource they come from, and sorts every target list.

    Effects are explicit: every function that logs, calls the cluster or
    renders the template lives in a writer-plus-error monad [M] whose
    trace records the calls in program order.  The cluster is one
    snapshot for the length of a pass: the informer's list and the
    answers of the API server are functions held by the source.

    The constructor [NewContourHTTPProxySource], which parses the
    template and waits for the informer cache, is not part of this
    development. *)

From Stdlib Require Import ZArith Ascii.
From stdpp Require Import gmap strings list sorting.

Local Open Scope string_scope.
Local Open Scope list_scope.
Local Open Scope stdpp_scope.

(** ** Errors and the effect monad *)

(** A Go [error], identified with its message. *)
Definition error : Type := string.

Inductive result (A : Type) : Type :=
| Ok (a : A)
| Err (e : error).
Arguments Ok {A} a.
Arguments Err {A} e.

Definition is_Err {A} (r : result A) : bool :=
  match r with Ok _ => false | Err _ => true end.

(** ** Data model *)

Module contourapi.
Record VirtualHost : Type := { Fqdn : string }.
Record HTTPProxySpec : Type := { VirtualHost_ : option VirtualHost }.
Record Status : Type := { CurrentStatus : string }.
(** [metav1.ObjectMeta] is embedded in the Go struct; only the three
    fields the source reads are kept. *)
Record HTTPProxy : Type := {
  Namespace : string;
  Name : string;
  Annotations : gmap string string;
  Spec : HTTPProxySpec;
  Status_ : Status
}.
End contourapi.
Export contourapi.

Module corev1.
Record LoadBalancerIngress : Type := { IP : string; Hostname : string }.
(** [svc.Status.LoadBalancer.Ingress] *)
Record Service : Type := { Ingress : list LoadBalancerIngress }.
End corev1.
Export corev1.

Module endpoint.
Definition TTL : Type := Z.
Definition Targets : Type := list string.
Definition ProviderSpecific : Type := gmap string string.

(** Modelled from the spec: the [endpoint] package is not among the
    sources.  Section 3 of the specification describes an Endpoint as a
    hostname, a record type, a list of targets, a TTL, provider-specific
    key/value pairs, a set identifier and a label map. *)
Record Endpoint : Type := {
  DNSName : string;
  Targets_ : Targets;
  RecordType : string;
  SetIdentifier : string;
  RecordTTL : TTL;
  Labels : gmap string string;
  ProviderSpecific_ : ProviderSpecific
}.

Definition withTargets (ep : Endpoint) (ts : Targets) : Endpoint :=
  {| DNSName := DNSName ep; Targets_ := ts; RecordType := RecordType ep;
     SetIdentifier := SetIdentifier ep; RecordTTL := RecordTTL ep;
     Labels := Labels ep; ProviderSpecific_ := ProviderSpecific_ ep |}.

Definition withLabel (ep : Endpoint) (k v : string) : Endpoint :=
  {| DNSName := DNSName ep; Targets_ := Targets_ ep; RecordType := RecordType ep;
     SetIdentifier := SetIdentifier ep; RecordTTL := RecordTTL ep;
     Labels := <[k := v]> (Labels ep); ProviderSpecific_ := ProviderSpecific_ ep |}.

(** Modelled from the spec: [Targets] implements [sort.Interface] in the
    absent [endpoint] package; the "canonical sort order" of section 4.6
    is taken to be Go's order on strings, byte-wise lexicographic, which
    is [String.le].  [sort.Sort] is specified by its result, the sorted
    permutation, which is unique for a total antisymmetric order. *)
Definition sortTargets (ts : Targets) : Targets := merge_sort String.le ts.
End endpoint.
Export endpoint.

(** What the run does to its surroundings, in program order. *)
Inductive Event : Type :=
| ListHTTPProxies (ns : string)
    (* httpProxyInformer.Lister().HTTPProxies(ns).List(labels.Everything()) *)
| GetService (ns name : string)
    (* kubeClient.CoreV1().Services(ns).Get(name, ...) *)
| ExecuteTemplate (hp : HTTPProxy)
    (* fqdnTemplate.Execute(&buf, hp) *)
| Warn (e : error)
    (* log.Warn(err) *)
| Debugf (format : string) (hp : HTTPProxy).
    (* log.Debugf(format, hp.Namespace, hp.Name, ...) *)

Definition M (A : Type) : Type := (list Event * result A)%type.

Definition ret {A} (a : A) : M A := ([], Ok a).
Definition fail {A} (e : error) : M A := ([], Err e).
Definition emit (ev : Event) : M unit := ([ev], Ok tt).
Definition bind {A B} (m : M A) (k : A → M B) : M B :=
  match m with
  | (t, Ok a) => let '(t', r) := k a in (t ++ t', r)
  | (t, Err e) => (t, Err e)
  end.

Notation "'do' x <- m ;; k" := (bind m (fun x => k))
  (at level 10, x name, m at level 99, k at level 200).
Notation "'do' ' p <- m ;; k" := (bind m (fun x => let 'p := x in k))
  (at level 10, p pattern, m at level 99, k at level 200).
Notation "'run' m ;; k" := (bind m (fun _ => k))
  (at level 10, m at level 99, k at level 200).

Definition trace {A} (m : M A) : list Event := fst m.
Definition outcome {A} (m : M A) : result A := snd m.

(** ** Go's [strings] functions, at the arguments the source uses *)

Module strings.
(** [strings.Replace(s, string(old), "", -1)]: every occurrence of the
    one-byte string [old] is deleted. *)
Fixpoint ReplaceAllEmpty (s : string) (old : ascii) : string :=
  match s with
  | EmptyString => EmptyString
  | String c s' =>
      if Ascii.eqb c old then ReplaceAllEmpty s' old
      else String c (ReplaceAllEmpty s' old)
  end.

(** [strings.Split(s, string(sep))] for a one-byte separator; the result
    always has at least one element, [Split("", ",")] being [[""]]. *)
Fixpoint Split (s : string) (sep : ascii) : list string :=
  match s with
  | EmptyString => [EmptyString]
  | String c s' =>
      if Ascii.eqb c sep then EmptyString :: Split s' sep
      else match Split s' sep with
           | h :: t => String c h :: t
           | [] => [String c EmptyString]
           end
  end.

(** [strings.TrimSuffix(s, string(suffix))] for a one-byte suffix: one
    occurrence is removed from the end, if there is one. *)
Fixpoint TrimSuffix (s : string) (suffix : ascii) : string :=
  match s with
  | EmptyString => EmptyString
  | String c EmptyString => if Ascii.eqb c suffix then EmptyString else s
  | String c s' => String c (TrimSuffix s' suffix)
  end.

(** [strings.HasSuffix(s, string(suffix))] *)
Fixpoint HasSuffix (s : string) (suffix : ascii) : bool :=
  match s with
  | EmptyString => false
  | String c EmptyString => Ascii.eqb c suffix
  | String _ s' => HasSuffix s' suffix
  end.

(** [strings.IndexByte(s, c) >= 0] *)
Fixpoint ContainsByte (s : string) (c : ascii) : bool :=
  match s with
  | EmptyString => false
  | String a s' => Ascii.eqb a c || ContainsByte s' c
  end.
End strings.

(** ** The parts of the repository and of its libraries that the file calls *)

(** The package-level constants and helpers of package [source] and the
    label key of package [endpoint].  They are declared in files that are
    not part of the sources at hand, so the development is parametric in
    them; [Model] further down gives one instance that follows the
    specification. *)
Class SourcePackage : Type := {
  controllerAnnotationKey : string;
  controllerAnnotationValue : string;
  ResourceLabelKey : string;
  getTTLFromAnnotations : gmap string string → TTL * option error;
  getTargetsFromTargetAnnotation : gmap string string → Targets;
  getProviderSpecificAnnotations : gmap string string → ProviderSpecific * string;
  getHostnamesFromAnnotations : gmap string string → list string;
  endpointsForHostname :
    string → Targets → TTL → ProviderSpecific → string → list Endpoint;
  parseContourLoadBalancerService : string → result (string * string)
}.

(** [k8s.io/apimachinery]: parsing a label-selector expression and
    matching it against a label set. *)
Class LabelsLibrary : Type := {
  LabelSelector : Type;
  Selector : Type;
  ParseToLabelSelector : string → result LabelSelector;
  LabelSelectorAsSelector : LabelSelector → result Selector;
  selector_Empty : Selector → bool;
  selector_Matches : Selector → gmap string string → bool
}.

(** What the source relies on from the selector library: the empty
    expression parses, to a selector that reports itself empty or matches
    every label set ([labels.Everything()]) ... *)
Definition emptyExpressionSelectsAll `{LabelsLibrary} : Prop :=
  ∃ labelSelector selector,
    ParseToLabelSelector "" = Ok labelSelector
    ∧ LabelSelectorAsSelector labelSelector = Ok selector
    ∧ (selector_Empty selector = true
       ∨ ∀ labels, selector_Matches selector labels = true).

(** ... and a selector that reports itself empty does not restrict the
    selection: it matches every label set. *)
Definition emptySelectorMatchesAll `{LabelsLibrary} : Prop :=
  ∀ selector labels,
    selector_Empty selector = true → selector_Matches selector labels = true.

(** Modelled from the spec: [getTTLFromAnnotations] is not among the
    sources.  Section 4.2 has it fall back to the "unset" TTL whenever the
    annotation does not parse, which is when it returns an error. *)
Definition unsetOnError `{SourcePackage} (unset : TTL) : Prop :=
  ∀ annotations ttl err,
    getTTLFromAnnotations annotations = (ttl, Some err) → ttl = unset.

(** Modelled from the spec: [endpointsForHostname] is not among the
    sources.  Section 4.6 has it construct the Endpoint from the tuple it
    is given, so with the TTL it is given. *)
Definition keepsTTL `{SourcePackage} : Prop :=
  ∀ hostname targets ttl providerSpecific setIdentifier ep,
    ep ∈ endpointsForHostname hostname targets ttl providerSpecific setIdentifier →
    RecordTTL ep = ttl.

(** Two endpoints that agree on every field but the order of their
    targets. *)
Definition sameUpToTargetOrder (ep1 ep2 : Endpoint) : Prop :=
  withTargets ep1 [] = withTargets ep2 [] ∧ Targets_ ep1 ≡ₚ Targets_ ep2.

(** Modelled from the spec: [endpointsForHostname] is not among the
    sources.  Sections 4.4 and 4.6 have it build one Endpoint per shape
    class of the targets it is given; reordering the targets then reorders
    the targets within each Endpoint and changes nothing else. *)
Definition respectsTargetOrder `{SourcePackage} : Prop :=
  ∀ hostname targets1 targets2 ttl providerSpecific setIdentifier,
    targets1 ≡ₚ targets2 →
    Forall2 sameUpToTargetOrder
      (endpointsForHostname hostname targets1 ttl providerSpecific setIdentifier)
      (endpointsForHostname hostname targets2 ttl providerSpecific setIdentifier).

(** Two answers of the service lookup that differ at most in the order of
    the ingress list, or that both fail. *)
Definition sameIngress (r1 r2 : result Service) : Prop :=
  match r1, r2 with
  | Ok svc1, Ok svc2 => Ingress svc1 ≡ₚ Ingress svc2
  | Err _, Err _ => True
  | _, _ => False
  end.

(** Two results that fail alike or succeed with related values. *)
Definition related {A} (R : A → A → Prop) (r1 r2 : result A) : Prop :=
  match r1, r2 with
  | Ok a1, Ok a2 => R a1 a2
  | Err e1, Err e2 => e1 = e2
  | _, _ => False
  end.

(** A parsed [*template.Template], identified with what [Execute] writes
    for a given HTTPProxy, or the error it returns. *)
Definition Template : Type := HTTPProxy → result string.

Record httpProxySource : Type := {
  (** [kubeClient.CoreV1().Services(ns).Get(name, ...)] *)
  kubeClient : string → string → result Service;
  contourLoadBalancerService : string;
  namespace : string;
  annotationFilter : string;
  (** [None] is the nil pointer left when no template is configured *)
  fqdnTemplate : option Template;
  combineFQDNAnnotation : bool;
  ignoreHostnameAnnotation : bool;
  (** [httpProxyInformer.Lister().HTTPProxies(ns).List(...)] *)
  httpProxyInformer : string → result (list HTTPProxy)
}.

(** ** The source, function by function *)

Section Source.
Context `{SourcePackage} `{LabelsLibrary}.

(** The loop of [targetsFromContourLoadBalancer] over
    [svc.Status.LoadBalancer.Ingress], appending to [targets]. *)
Definition ingressTargets (ingress : list LoadBalancerIngress)
    (targets : Targets) : Targets :=
  fold_left
    (fun targets lb =>
       let targets :=
         if negb (String.eqb (IP lb) "") then targets ++ [IP lb] else targets in
       if negb (String.eqb (Hostname lb) "") then targets ++ [Hostname lb]
       else targets)
    ingress targets.

(** The error of the service lookup is declared in the scope of the
    [if] statement, so it shadows the named result: it is logged and the
    function returns the (empty) [targets] with a nil error. *)
Definition targetsFromContourLoadBalancer (sc : httpProxySource) : M Targets :=
  match parseContourLoadBalancerService (contourLoadBalancerService sc) with
  | Err err => fail err
  | Ok (lbNamespace, lbName) =>
      run emit (GetService lbNamespace lbName) ;;
      match kubeClient sc lbNamespace lbName with
      | Err err => run emit (Warn err) ;; ret []
      | Ok svc => ret (ingressTargets (Ingress svc) [])
      end
  end.

(** The statements
    [targets := getTargetsFromTargetAnnotation(hp.Annotations);
     if len(targets) == 0 { targets, err = sc.targetsFromContourLoadBalancer(); ... }],
    which [endpointsFromHttpProxy] and [endpointsFromTemplate] both
    contain verbatim. *)
Definition resolveTargets (sc : httpProxySource) (hp : HTTPProxy) : M Targets :=
  let targets := getTargetsFromTargetAnnotation (Annotations hp) in
  if (length targets =? 0)%nat then targetsFromContourLoadBalancer sc
  else ret targets.

(** [ttl, err := getTTLFromAnnotations(...); if err != nil { log.Warn(err) }] *)
Definition warnIfError (err : option error) : M unit :=
  match err with
  | Some e => emit (Warn e)
  | None => ret tt
  end.

Definition endpointsFromHttpProxy (sc : httpProxySource) (hp : HTTPProxy)
    : M (list Endpoint) :=
  if negb (String.eqb (CurrentStatus (Status_ hp)) "valid") then
    run emit (Warn ("cannot generate endpoints for httpproxy with status "
                      +:+ CurrentStatus (Status_ hp))) ;;
    ret []
  else
    let '(ttl, err) := getTTLFromAnnotations (Annotations hp) in
    run warnIfError err ;;
    do targets <- resolveTargets sc hp ;;
    let '(providerSpecific, setIdentifier) :=
      getProviderSpecificAnnotations (Annotations hp) in
    let endpoints : list Endpoint := [] in
    let endpoints :=
      match VirtualHost_ (Spec hp) with
      | Some virtualHost =>
          if negb (String.eqb (Fqdn virtualHost) "") then
            endpoints ++ endpointsForHostname (Fqdn virtualHost) targets ttl
                           providerSpecific setIdentifier
          else endpoints
      | None => endpoints
      end in
    let endpoints :=
      if negb (ignoreHostnameAnnotation sc) then
        fold_left
          (fun endpoints hostname =>
             endpoints ++ endpointsForHostname hostname targets ttl
                            providerSpecific setIdentifier)
          (getHostnamesFromAnnotations (Annotations hp)) endpoints
      else endpoints in
    ret endpoints.

(** [hostnameList], with the trailing period of each piece trimmed: the
    hostnames the loop of [endpointsFromTemplate] hands to
    [endpointsForHostname], in order. *)
Definition templateHostnames (hostnames : string) : list string :=
  map (fun hostname => strings.TrimSuffix hostname ".")
      (strings.Split (strings.ReplaceAllEmpty hostnames " ") ",").

(** [fqdnTemplate] is the receiver's field, which the only caller has
    found to be non-nil. *)
Definition endpointsFromTemplate (sc : httpProxySource) (fqdnTemplate : Template)
    (hp : HTTPProxy) : M (list Endpoint) :=
  run emit (ExecuteTemplate hp) ;;
  match fqdnTemplate hp with
  | Err err =>
      fail ("failed to apply template on HTTPProxy " +:+ Namespace hp +:+ "/"
              +:+ Name hp +:+ ": " +:+ err)
  | Ok hostnames =>
      let '(ttl, err) := getTTLFromAnnotations (Annotations hp) in
      run warnIfError err ;;
      do targets <- resolveTargets sc hp ;;
      let '(providerSpecific, setIdentifier) :=
        getProviderSpecificAnnotations (Annotations hp) in
      let hostnameList :=
        strings.Split (strings.ReplaceAllEmpty hostnames " ") "," in
      ret (fold_left
             (fun endpoints hostname =>
                let hostname := strings.TrimSuffix hostname "." in
                endpoints ++ endpointsForHostname hostname targets ttl
                               providerSpecific setIdentifier)
             hostnameList [])
  end.

Definition filterByAnnotations (sc : httpProxySource)
    (httpProxies : list HTTPProxy) : result (list HTTPProxy) :=
  match ParseToLabelSelector (annotationFilter sc) with
  | Err err => Err err
  | Ok labelSelector =>
      match LabelSelectorAsSelector labelSelector with
      | Err err => Err err
      | Ok selector =>
          if selector_Empty selector then Ok httpProxies
          else
            Ok (fold_left
                  (fun filteredList hp =>
                     if selector_Matches selector (Annotations hp)
                     then filteredList ++ [hp] else filteredList)
                  httpProxies [])
      end
  end.

(** [fmt.Sprintf("hp/%s/%s", hp.Namespace, hp.Name)] *)
Definition resourceLabel (hp : HTTPProxy) : string :=
  "hp/" +:+ Namespace hp +:+ "/" +:+ Name hp.

(** The Go method writes the label into each endpoint in place; here
    the relabelled endpoints are returned.  Each endpoint has a label map
    of its own, so writing to one does not show in another. *)
Definition setResourceLabel (hp : HTTPProxy) (endpoints : list Endpoint)
    : list Endpoint :=
  map (fun ep => withLabel ep ResourceLabelKey (resourceLabel hp)) endpoints.

(** The controller test of the loop, [ok && controller != controllerAnnotationValue]. *)
Definition controllerMismatch (hp : HTTPProxy) : bool :=
  match Annotations hp !! controllerAnnotationKey with
  | Some controller => negb (String.eqb controller controllerAnnotationValue)
  | None => false
  end.

(** The loop body of [Endpoints] from the call of [endpointsFromHttpProxy]
    on, for a resource that passed the two tests at the top of the body.
    The result is what the iteration appends to [endpoints]; [continue]
    appends nothing. *)
Definition Endpoints_generate (sc : httpProxySource) (hp : HTTPProxy)
    : M (list Endpoint) :=
  do hpEndpoints <- endpointsFromHttpProxy sc hp ;;
  do hpEndpoints <-
    match fqdnTemplate sc with
    | Some tmpl =>
        if combineFQDNAnnotation sc || (length hpEndpoints =? 0)%nat then
          do tmplEndpoints <- endpointsFromTemplate sc tmpl hp ;;
          ret (if combineFQDNAnnotation sc then hpEndpoints ++ tmplEndpoints
               else tmplEndpoints)
        else ret hpEndpoints
    | None => ret hpEndpoints
    end ;;
  if (length hpEndpoints =? 0)%nat then
    run emit (Debugf "No endpoints could be generated from httpproxy %s/%s" hp) ;;
    ret []
  else
    run emit (Debugf "Endpoints generated from httpproxy: %s/%s: %v" hp) ;;
    ret (setResourceLabel hp hpEndpoints).

(** One iteration of the loop of [Endpoints]. *)
Definition Endpoints_body (sc : httpProxySource) (hp : HTTPProxy)
    : M (list Endpoint) :=
  if controllerMismatch hp then
    run emit (Debugf "Skipping httpproxy %s/%s because controller value does not match, found: %s, requhped: %s" hp) ;;
    ret []
  else if negb (String.eqb (CurrentStatus (Status_ hp)) "valid") then
    run emit (Debugf "Skipping httpproxy %s/%s because it is not valid" hp) ;;
    ret []
  else Endpoints_generate sc hp.

Fixpoint Endpoints_loop (sc : httpProxySource) (hps : list HTTPProxy)
    (endpoints : list Endpoint) : M (list Endpoint) :=
  match hps with
  | [] => ret endpoints
  | hp :: hps' =>
      do hpEndpoints <- Endpoints_body sc hp ;;
      Endpoints_loop sc hps' (endpoints ++ hpEndpoints)
  end.

(** [for _, ep := range endpoints { sort.Sort(ep.Targets) }] *)
Definition sortAll (endpoints : list Endpoint) : list Endpoint :=
  map (fun ep => withTargets ep (sortTargets (Targets_ ep))) endpoints.

Definition Endpoints (sc : httpProxySource) : M (list Endpoint) :=
  run emit (ListHTTPProxies (namespace sc)) ;;
  match httpProxyInformer sc (namespace sc) with
  | Err err => fail err
  | Ok hps =>
      match filterByAnnotations sc hps with
      | Err err => fail err
      | Ok hps =>
          do endpoints <- Endpoints_loop sc hps [] ;;
          ret (sortAll endpoints)
      end
  end.
(** *** Closed forms used in the statements *)

(** What one ingress entry contributes: its IP if it has one, then its
    hostname if it has one. *)
Definition ingressEntryTargets (lb : LoadBalancerIngress) : Targets :=
  (if negb (String.eqb (IP lb) "") then [IP lb] else [])
  ++ (if negb (String.eqb (Hostname lb) "") then [Hostname lb] else []).

(** The hostnames of the primary path: the virtual host's FQDN if it is
    set and not empty, then the hostnames of the annotation unless they
    are ignored. *)
Definition primaryHostnames (sc : httpProxySource) (hp : HTTPProxy)
    : list string :=
  match VirtualHost_ (Spec hp) with
  | Some virtualHost =>
      if negb (String.eqb (Fqdn virtualHost) "") then [Fqdn virtualHost] else []
  | None => []
  end
  ++ (if negb (ignoreHostnameAnnotation sc)
      then getHostnamesFromAnnotations (Annotations hp) else []).

(** The endpoints of a list of hostnames, each assembled with the given
    targets and TTL and with the provider-specific annotations and set
    identifier of the resource. *)
Definition assemble (hp : HTTPProxy) (targets : Targets) (ttl : TTL)
    (hostnames : list string) : list Endpoint :=
  flat_map
    (fun hostname =>
       endpointsForHostname hostname targets ttl
         (getProviderSpecificAnnotations (Annotations hp)).1
         (getProviderSpecificAnnotations (Annotations hp)).2)
    hostnames.

(** The condition under which the loop body renders the template, given
    the endpoints of the primary path:
    [(sc.combineFQDNAnnotation || len(hpEndpoints) == 0) && sc.fqdnTemplate != nil]. *)
Definition rendersTemplate (sc : httpProxySource) (eps : list Endpoint) : Prop :=
  is_Some (fqdnTemplate sc) ∧ (combineFQDNAnnotation sc = true ∨ eps = []).

(** The source reading another snapshot of the HTTPProxy cache. *)
Definition withHTTPProxies (sc : httpProxySource) (hps : list HTTPProxy)
    : httpProxySource :=
  {| kubeClient := kubeClient sc;
     contourLoadBalancerService := contourLoadBalancerService sc;
     namespace := namespace sc;
     annotationFilter := annotationFilter sc;
     fqdnTemplate := fqdnTemplate sc;
     combineFQDNAnnotation := combineFQDNAnnotation sc;
     ignoreHostnameAnnotation := ignoreHostnameAnnotation sc;
     httpProxyInformer := fun _ => Ok hps |}.

(** The source talking to another API server. *)
Definition withKubeClient (sc : httpProxySource)
    (client : string → string → result Service) : httpProxySource :=
  {| kubeClient := client;
     contourLoadBalancerService := contourLoadBalancerService sc;
     namespace := namespace sc;
     annotationFilter := annotationFilter sc;
     fqdnTemplate := fqdnTemplate sc;
     combineFQDNAnnotation := combineFQDNAnnotation sc;
     ignoreHostnameAnnotation := ignoreHostnameAnnotation sc;
     httpProxyInformer := httpProxyInformer sc |}.
End Source.

(** Events of the target and TTL paths: a service lookup or a warning. *)
Definition lookupOrWarning (ev : Event) : Prop :=
  match ev with
  | GetService _ _ | Warn _ => True
  | _ => False
  end.

(** [fmt.Errorf("failed to apply template on HTTPProxy %s/%s: %v", ...)] *)
Definition templateError (hp : HTTPProxy) (err : error) : error :=
  "failed to apply template on HTTPProxy " +:+ Namespace hp +:+ "/"
    +:+ Name hp +:+ ": " +:+ err.

(** ** An instance of the absent helpers, following the specification *)

Module Model.
(** Modelled from the spec: the annotation keys and the controller value
    are constants of package [source] declared outside the sources at
    hand; the specification only calls them "well-known".  The label key
    is the [resource] of section 3. *)
Definition controllerAnnotationKey : string :=
  "external-dns.alpha.kubernetes.io/controller".
Definition controllerAnnotationValue : string := "dns-controller".
Definition ttlAnnotationKey : string := "external-dns.alpha.kubernetes.io/ttl".
Definition targetAnnotationKey : string := "external-dns.alpha.kubernetes.io/target".
Definition hostnameAnnotationKey : string :=
  "external-dns.alpha.kubernetes.io/hostname".
Definition setIdentifierKey : string :=
  "external-dns.alpha.kubernetes.io/set-identifier".
Definition providerPrefix : string := "external-dns.alpha.kubernetes.io/aws-".
Definition ResourceLabelKey : string := "resource".

(** Modelled from the spec: section 3, "TTL (optional signed integer, -1
    meaning unset)". *)
Definition ttlNotConfigured : TTL := (-1)%Z.

Definition digit (c : ascii) : option Z :=
  let n := Z.of_N (N_of_ascii c) in
  if ((48 <=? n) && (n <=? 57))%Z then Some (n - 48)%Z else None.

Fixpoint parseDigits (s : string) (acc : Z) : option Z :=
  match s with
  | EmptyString => Some acc
  | String c s' =>
      match digit c with
      | Some d => parseDigits s' (10 * acc + d)%Z
      | None => None
      end
  end.

Definition parseTTL (s : string) : option Z :=
  match s with
  | EmptyString => None
  | _ => parseDigits s 0%Z
  end.

(** Modelled from the spec: [getTTLFromAnnotations] is not among the
    sources.  Section 4.2: the value under the TTL key is parsed as a
    non-negative integer; an absent key gives the unset TTL and no error,
    a value that does not parse gives the unset TTL and an error. *)
Definition getTTLFromAnnotations (annotations : gmap string string)
    : TTL * option error :=
  match annotations !! ttlAnnotationKey with
  | None => (ttlNotConfigured, None)
  | Some v =>
      match parseTTL v with
      | Some ttl => (ttl, None)
      | None => (ttlNotConfigured, Some ("not a valid TTL value: " +:+ v))
      end
  end.

Definition nonEmpty (s : string) : bool := negb (String.eqb s "").

(** A comma-delimited annotation value, blanks ignored, empty pieces dropped. *)
Definition splitList (v : string) : list string :=
  List.filter nonEmpty (strings.Split (strings.ReplaceAllEmpty v " ") ",").

(** Modelled from the spec: [getTargetsFromTargetAnnotation] is not among
    the sources.  Section 4.2: a delimited annotation value is parsed
    into an ordered target list; empty or absent gives the empty list. *)
Definition getTargetsFromTargetAnnotation (annotations : gmap string string)
    : Targets :=
  match annotations !! targetAnnotationKey with
  | Some v => splitList v
  | None => []
  end.

(** Modelled from the spec: [getHostnamesFromAnnotations] is not among
    the sources.  Section 4.2: a delimited annotation value is parsed
    into a list of hostnames. *)
Definition getHostnamesFromAnnotations (annotations : gmap string string)
    : list string :=
  match annotations !! hostnameAnnotationKey with
  | Some v => splitList v
  | None => []
  end.

Fixpoint stripPrefix (p s : string) : option string :=
  match p, s with
  | EmptyString, _ => Some s
  | String a p', String b s' => if Ascii.eqb a b then stripPrefix p' s' else None
  | String _ _, EmptyString => None
  end.

(** Modelled from the spec: [getProviderSpecificAnnotations] is not among
    the sources.  Section 4.2: the annotations under a recognised prefix,
    with the prefix stripped from the key, and the set identifier. *)
Definition getProviderSpecificAnnotations (annotations : gmap string string)
    : ProviderSpecific * string :=
  (list_to_map
     (omap (fun kv : string * string =>
              match stripPrefix providerPrefix kv.1 with
              | Some k => Some (k, kv.2)
              | None => None
              end)
           (map_to_list annotations)),
   default "" (annotations !! setIdentifierKey)).

Definition allDigits (s : string) : bool :=
  forallb (fun c => bool_decide (is_Some (digit c))) (String.list_ascii_of_string s).

Definition isOctet (s : string) : bool :=
  nonEmpty s && allDigits s && (String.length s <=? 3)%nat
  && match parseDigits s 0%Z with Some n => (n <=? 255)%Z | None => false end.

(** Modelled from the spec: section 3 has each target "either an
    IPv4/IPv6 literal or a hostname string".  A dotted quad of octets is
    an IPv4 literal; a string with a colon is taken for an IPv6 literal,
    as no hostname has one. *)
Definition isIPLiteral (t : string) : bool :=
  let parts := strings.Split t "." in
  ((length parts =? 4)%nat && forallb isOctet parts)
  || existsb (fun c => Ascii.eqb c ":") (String.list_ascii_of_string t).

Definition newEndpoint (hostname recordType : string) (targets : Targets)
    (ttl : TTL) (providerSpecific : ProviderSpecific) (setIdentifier : string)
    : Endpoint :=
  {| DNSName := hostname; Targets_ := targets; RecordType := recordType;
     SetIdentifier := setIdentifier; RecordTTL := ttl; Labels := ∅;
     ProviderSpecific_ := providerSpecific |}.

(** Modelled from the spec: [endpointsForHostname] is not among the
    sources.  Sections 3, 4.4 and 4.6: one Endpoint per target-shape
    class of the hostname's targets, the record type following the
    shape, and no Endpoint with an empty target list. *)
Definition endpointsForHostname (hostname : string) (targets : Targets)
    (ttl : TTL) (providerSpecific : ProviderSpecific) (setIdentifier : string)
    : list Endpoint :=
  let aTargets := List.filter isIPLiteral targets in
  let cnameTargets := List.filter (fun t => negb (isIPLiteral t)) targets in
  (if (0 <? length aTargets)%nat
   then [newEndpoint hostname "A" aTargets ttl providerSpecific setIdentifier]
   else [])
  ++ (if (0 <? length cnameTargets)%nat
      then [newEndpoint hostname "CNAME" cnameTargets ttl providerSpecific
              setIdentifier]
      else []).

(** Modelled from the spec: [parseContourLoadBalancerService] is not
    among the sources.  Section 4.3: a combined "namespace/name" string;
    a missing separator, or more than one, is an error. *)
Definition parseContourLoadBalancerService (service : string)
    : result (string * string) :=
  match strings.Split service "/" with
  | [ns; name] => Ok (ns, name)
  | _ => Err ("invalid contour load balancer service (namespace/name) found "
                +:+ service)
  end.

Definition sourcePackage : SourcePackage :=
  Build_SourcePackage controllerAnnotationKey controllerAnnotationValue
    ResourceLabelKey getTTLFromAnnotations getTargetsFromTargetAnnotation
    getProviderSpecificAnnotations getHostnamesFromAnnotations
    endpointsForHostname parseContourLoadBalancerService.

(** A label selector reduced to a conjunction of equality clauses
    [k=v,k'=v',...], enough to exercise [filterByAnnotations]; the empty
    expression is the empty conjunction. *)
Definition parseClause (c : string) : option (string * string) :=
  match strings.Split c "=" with
  | [k; v] => if nonEmpty k then Some (k, v) else None
  | _ => None
  end.

Fixpoint parseClauses (cs : list string) : result (list (string * string)) :=
  match cs with
  | [] => Ok []
  | c :: cs' =>
      match parseClause c, parseClauses cs' with
      | Some kv, Ok kvs => Ok (kv :: kvs)
      | None, _ => Err ("couldn't parse the selector string " +:+ c)
      | _, Err e => Err e
      end
  end.

Definition ParseToLabelSelector (s : string) : result (list (string * string)) :=
  match s with
  | EmptyString => Ok []
  | _ => parseClauses (strings.Split (strings.ReplaceAllEmpty s " ") ",")
  end.

Definition selector_Matches (sel : list (string * string))
    (labels : gmap string string) : bool :=
  forallb (fun kv : string * string =>
             bool_decide (labels !! kv.1 = Some kv.2)) sel.

Definition labelsLibrary : LabelsLibrary :=
  Build_LabelsLibrary (list (string * string)) (list (string * string))
    ParseToLabelSelector Ok (fun sel => (length sel =? 0)%nat)
    selector_Matches.
End Model.


(** ** The constructor *)

(** [NewContourHTTPProxySource].  The first component of the result is
    what the constructor prints to standard output.

    [parseTemplate] is
    [template.New("endpoint").Funcs(...).Parse]; [informer] is the
    lister of the shared informer the constructor creates from the
    Contour client for [namespace]; [synced] is what [wait.Poll] returns
    once the informer has started: nil when the cache was populated within
    the minute, the timeout error otherwise.  The Contour client itself
    and [checkHTTPProxyHealth] are not kept: the first is only read
    through the informer, the second is not stored by the Go constructor
    either. *)
Definition NewContourHTTPProxySource `{SourcePackage}
    (parseTemplate : string → result Template)
    (kubeClient : string → string → result Service)
    (informer : string → result (list HTTPProxy))
    (synced : option error)
    (contourLoadBalancerService namespace annotationFilter fqdnTemplate : string)
    (combineFqdnAnnotation ignoreHostnameAnnotation checkHTTPProxyHealth : bool)
    : list string * result httpProxySource :=
  let tmpl :=
    if negb (String.eqb fqdnTemplate "") then
      match parseTemplate fqdnTemplate with
      | Ok t => Ok (Some t)
      | Err err => Err err
      end
    else Ok None in
  match tmpl with
  | Err err => ([], Err err)
  | Ok tmpl =>
      match parseContourLoadBalancerService contourLoadBalancerService with
      | Err err => ([], Err err)
      | Ok _ =>
          match synced with
          | Some err => ([], Err ("failed to sync cache: " +:+ err))
          | None =>
              (["creating httpproxy source with namespace " +:+ namespace
                  +:+ " " +:+ String "010" ""],
               Ok (Build_httpProxySource kubeClient contourLoadBalancerService
                     namespace annotationFilter tmpl combineFqdnAnnotation
                     ignoreHostnameAnnotation informer))
          end
      end
  end.

(** ** Counting *)

(** The number of service lookups in a trace. *)
Definition isGetService (ev : Event) : bool :=
  match ev with
  | GetService _ _ => true
  | _ => false
  end.

Definition lookups (t : list Event) : nat := length (List.filter isGetService t).

(** [strings.Count(s, string(c))] for a one-byte string. *)
Fixpoint countByte (s : string) (c : ascii) : nat :=
  match s with
  | EmptyString => 0
  | String a s' => (if Ascii.eqb a c then 1 else 0) + countByte s' c
  end.

(** The resources for which the target annotation gives no target, so
    that the load balancer is asked. *)
Definition needsLoadBalancer `{SourcePackage} (hp : HTTPProxy) : bool :=
  (length (getTargetsFromTargetAnnotation (Annotations hp)) =? 0)%nat.

(** [raw] is an endpoint that [endpointsForHostname] gives for a hostname
    of the resource, from the primary path or rendered by the configured
    template, with the resolved targets and the TTL, provider-specific
    annotations and set identifier of the resource. *)
Definition assembledFor `{SourcePackage} (sc : httpProxySource) (hp : HTTPProxy)
    (raw : Endpoint) : Prop :=
  ∃ hostname targets,
    outcome (resolveTargets sc hp) = Ok targets
    ∧ raw ∈ endpointsForHostname hostname targets
              (getTTLFromAnnotations (Annotations hp)).1
              (getProviderSpecificAnnotations (Annotations hp)).1
              (getProviderSpecificAnnotations (Annotations hp)).2
    ∧ (hostname ∈ primaryHostnames sc hp
       ∨ ∃ tmpl rendered,
           fqdnTemplate sc = Some tmpl ∧ tmpl hp = Ok rendered
           ∧ hostname ∈ templateHostnames rendered).

(** ** Sample inputs *)

Module Samples.
Import Model.

Definition proxy (name : string) (annotations : gmap string string)
    (fqdn : option string) (status : string) : HTTPProxy :=
  {| Namespace := "default"; Name := name; Annotations := annotations;
     Spec := {| VirtualHost_ := (fun f => {| Fqdn := f |}) <$> fqdn |};
     Status_ := {| CurrentStatus := status |} |}.

(** The load balancer of the specification's fallback example. *)
Definition envoy : Service :=
  {| Ingress := [ {| IP := "10.0.0.1"; Hostname := "" |};
                  {| IP := ""; Hostname := "lb.example.com" |} ] |}.

Definition source (client : string → string → result Service)
    (filter : string) (tmpl : option Template) (combine : bool)
    (hps : list HTTPProxy) : httpProxySource :=
  {| kubeClient := client;
     contourLoadBalancerService := "projectcontour/envoy";
     namespace := "";
     annotationFilter := filter;
     fqdnTemplate := tmpl;
     combineFQDNAnnotation := combine;
     ignoreHostnameAnnotation := false;
     httpProxyInformer := fun _ => Ok hps |}.

(** A load balancer with two addresses, and the same load balancer with
    its ingress listed in the other order. *)
Definition dual : Service :=
  {| Ingress := [ {| IP := "10.0.0.2"; Hostname := "" |};
                  {| IP := "10.0.0.1"; Hostname := "lb.example.com" |} ] |}.
Definition dualReversed : Service :=
  {| Ingress := [ {| IP := "10.0.0.1"; Hostname := "lb.example.com" |};
                  {| IP := "10.0.0.2"; Hostname := "" |} ] |}.

Definition withEnvoy : string → string → result Service := fun _ _ => Ok envoy.
Definition withDual : string → string → result Service := fun _ _ => Ok dual.
Definition withDualReversed : string → string → result Service :=
  fun _ _ => Ok dualReversed.
Definition noService : string → string → result Service :=
  fun _ _ => Err "services not found".

(** The template [{{.Name}}.example.com]. *)
Definition nameTemplate : Template := fun hp => Ok (Name hp +:+ ".example.com").
(** The template [{{.Name}}.example.com., {{.Name}}.example.org]. *)
Definition listTemplate : Template :=
  fun hp => Ok (Name hp +:+ ".example.com., " +:+ Name hp +:+ ".example.org").
Definition brokenTemplate : Template :=
  fun _ => Err "can't evaluate field Nme in type *v1.HTTPProxy".

Definition plain : HTTPProxy := proxy "foo" ∅ (Some "a.com") "valid".
Definition annotated : HTTPProxy :=
  proxy "bar" {[ targetAnnotationKey := "1.2.3.4,5.6.7.8" ]} (Some "b.com") "valid".
Definition badTTL : HTTPProxy :=
  proxy "baz" {[ ttlAnnotationKey := "abc" ]} (Some "c.com") "valid".
Definition foreign : HTTPProxy :=
  proxy "qux" {[ controllerAnnotationKey := "other-controller" ]}
    (Some "d.com") "valid".
Definition invalid : HTTPProxy := proxy "bad" ∅ (Some "e.com") "invalid".
Definition hostless : HTTPProxy := proxy "foo" ∅ None "valid".

(** The endpoint expected for a hostname of resource [name]. *)
Definition expected (hostname recordType : string) (targets : Targets)
    (ttl : TTL) (name : string) : Endpoint :=
  {| DNSName := hostname; Targets_ := targets; RecordType := recordType;
     SetIdentifier := ""; RecordTTL := ttl;
     Labels := {[ ResourceLabelKey := "hp/default/" +:+ name ]};
     ProviderSpecific_ := ∅ |}.

(** An endpoint as [endpointsForHostname] returns it, before labelling. *)
Definition assembled (hostname recordType : string) (targets : Targets)
    (ttl : TTL) : Endpoint :=
  newEndpoint hostname recordType targets ttl ∅ "".
End Samples.

(** ** More sample inputs *)

Module Cluster.
Import Model.

(** A load balancer whose second entry has no address at all. *)
Definition sparse : Service :=
  {| Ingress := [ {| IP := "10.0.0.1"; Hostname := "lb.example.com" |};
                  {| IP := ""; Hostname := "" |} ] |}.
Definition withSparse : string → string → result Service := fun _ _ => Ok sparse.

(** A source whose service string lacks the namespace. *)
Definition misconfigured (hps : list HTTPProxy) : httpProxySource :=
  {| kubeClient := Samples.withEnvoy;
     contourLoadBalancerService := "envoy";
     namespace := "";
     annotationFilter := "";
     fqdnTemplate := Some Samples.nameTemplate;
     combineFQDNAnnotation := false;
     ignoreHostnameAnnotation := false;
     httpProxyInformer := fun _ => Ok hps |}.

(** A template parser that accepts its input and returns a template that
    fails once executed, as one naming a field the resource lacks does. *)
Definition parsesButFails : string → result Template :=
  fun _ => Ok Samples.brokenTemplate.
Definition parsesNames : string → result Template :=
  fun _ => Ok Samples.nameTemplate.
Definition cache (hps : list HTTPProxy) : string → result (list HTTPProxy) :=
  fun _ => Ok hps.
End Cluster.
(** ** The monad *)

Section MonadFacts.
Context {A B : Type}.



Lemma bind_Ok (m : M A) (k : A → M B) t a :
  m = (t, Ok a) → bind m k = (t ++ trace (k a), outcome (k a)).
Proof. intros ->. unfold bind, trace, outcome. by destruct (k a). Qed.

Lemma bind_Err (m : M A) (k : A → M B) t e :
  m = (t, Err e) → bind m k = (t, Err e).
Proof. by intros ->. Qed.

Lemma outcome_bind (m : M A) (k : A → M B) :
  outcome (bind m k) =
  match outcome m with
  | Ok a => outcome (k a)
  | Err e => Err e
  end.
Proof.
  destruct m as [t [a|e]]; [|done].
  by rewrite (bind_Ok _ _ t a).
Qed.

Lemma trace_bind (m : M A) (k : A → M B) :
  trace (bind m k) =
  trace m ++ match outcome m with
             | Ok a => trace (k a)
             | Err _ => []
             end.
Proof.
  destruct m as [t [a|e]].
  - by rewrite (bind_Ok _ _ t a).
  - unfold trace; simpl. by rewrite app_nil_r.
Qed.

Lemma bind_ext (m : M A) (k k' : A → M B) :
  (∀ a, k a = k' a) → bind m k = bind m k'.
Proof. intros Hk. destruct m as [t [a|e]]; simpl; [|done]. by rewrite Hk. Qed.

End MonadFacts.

Lemma emit_bind {B} (ev : Event) (k : unit → M B) :
  bind (emit ev) k = (ev :: trace (k tt), outcome (k tt)).
Proof. by rewrite (bind_Ok _ _ [ev] tt). Qed.

(** ** Loops as list functions *)

Lemma fold_left_app_flat_map {X Y} (f : X → list Y) (l : list X) (acc : list Y) :
  fold_left (fun acc x => acc ++ f x) l acc = acc ++ flat_map f l.
Proof.
  revert acc. induction l as [|x l IH]; intros acc; simpl.
  - by rewrite app_nil_r.
  - by rewrite IH, <- app_assoc.
Qed.

Lemma fold_left_filter {X} (p : X → bool) (l acc : list X) :
  fold_left (fun acc x => if p x then acc ++ [x] else acc) l acc
  = acc ++ List.filter p l.
Proof.
  revert acc. induction l as [|x l IH]; intros acc; simpl.
  - by rewrite app_nil_r.
  - rewrite IH. destruct (p x); [|done]. by rewrite <- app_assoc.
Qed.

Lemma flat_map_map {X Y Z} (g : X → Y) (f : Y → list Z) (l : list X) :
  flat_map f (map g l) = flat_map (fun x => f (g x)) l.
Proof. induction l as [|x l IH]; simpl; [done|]. by rewrite IH. Qed.

Lemma filter_all {X} (p : X → bool) (l : list X) :
  (∀ x, x ∈ l → p x = true) → List.filter p l = l.
Proof.
  induction l as [|x l IH]; intros Hp; simpl; [done|].
  rewrite (Hp x) by apply list_elem_of_here.
  f_equal. apply IH. intros y Hy. apply Hp. by apply list_elem_of_further.
Qed.

Lemma filter_none {X} (p : X → bool) (l : list X) :
  (∀ x, x ∈ l → p x = false) → List.filter p l = [].
Proof.
  induction l as [|x l IH]; intros Hp; simpl; [done|].
  rewrite (Hp x) by apply list_elem_of_here.
  apply IH. intros y Hy. apply Hp. by apply list_elem_of_further.
Qed.

Section SourceFacts.
Context `{SourcePackage} `{LabelsLibrary}.

Lemma ingressTargets_flat_map ingress targets :
  ingressTargets ingress targets = targets ++ flat_map ingressEntryTargets ingress.
Proof.
  unfold ingressTargets. revert targets.
  induction ingress as [|lb ingress IH]; intros targets; simpl.
  - by rewrite app_nil_r.
  - rewrite IH. unfold ingressEntryTargets.
    destruct (negb (IP lb =? "")), (negb (Hostname lb =? "")); simpl;
      by rewrite <- ?app_assoc.
Qed.

(** [endpointsFromHttpProxy] on a resource whose status is valid. *)
Lemma endpointsFromHttpProxy_valid sc hp :
  CurrentStatus (Status_ hp) = "valid" →
  endpointsFromHttpProxy sc hp =
  (run warnIfError (getTTLFromAnnotations (Annotations hp)).2 ;;
   do targets <- resolveTargets sc hp ;;
   ret (assemble hp targets (getTTLFromAnnotations (Annotations hp)).1
          (primaryHostnames sc hp))).
Proof.
  intros Hv. unfold endpointsFromHttpProxy. rewrite Hv. simpl.
  destruct (getTTLFromAnnotations (Annotations hp)) as [ttl err]. simpl.
  apply bind_ext; intros _. apply bind_ext; intros targets.
  destruct (getProviderSpecificAnnotations (Annotations hp)) as [ps si] eqn:Hps.
  unfold assemble, primaryHostnames. rewrite Hps. simpl.
  f_equal. rewrite flat_map_app.
  destruct (negb (ignoreHostnameAnnotation sc)).
  - rewrite fold_left_app_flat_map. f_equal.
    destruct (VirtualHost_ (Spec hp)) as [vh|]; [|done].
    destruct (negb (Fqdn vh =? "")); simpl; by rewrite ?app_nil_r.
  - simpl. rewrite app_nil_r.
    destruct (VirtualHost_ (Spec hp)) as [vh|]; [|done].
    destruct (negb (Fqdn vh =? "")); simpl; by rewrite ?app_nil_r.
Qed.

(** [endpointsFromTemplate] when the template renders. *)
Lemma endpointsFromTemplate_Ok sc tmpl hp hostnames :
  tmpl hp = Ok hostnames →
  endpointsFromTemplate sc tmpl hp =
  (run emit (ExecuteTemplate hp) ;;
   run warnIfError (getTTLFromAnnotations (Annotations hp)).2 ;;
   do targets <- resolveTargets sc hp ;;
   ret (assemble hp targets (getTTLFromAnnotations (Annotations hp)).1
          (templateHostnames hostnames))).
Proof.
  intros Ht. unfold endpointsFromTemplate. rewrite Ht.
  apply bind_ext; intros _.
  destruct (getTTLFromAnnotations (Annotations hp)) as [ttl err]. simpl.
  apply bind_ext; intros _. apply bind_ext; intros targets.
  destruct (getProviderSpecificAnnotations (Annotations hp)) as [ps si] eqn:Hps.
  unfold assemble, templateHostnames. rewrite Hps. simpl.
  f_equal. rewrite flat_map_map.
  by rewrite (fold_left_app_flat_map
                (fun hostname => endpointsForHostname
                   (strings.TrimSuffix hostname ".") targets ttl ps si)).
Qed.

Lemma endpointsFromTemplate_Err sc tmpl hp err :
  tmpl hp = Err err →
  endpointsFromTemplate sc tmpl hp =
  ([ExecuteTemplate hp],
   Err ("failed to apply template on HTTPProxy " +:+ Namespace hp +:+ "/"
          +:+ Name hp +:+ ": " +:+ err)).
Proof. intros Ht. unfold endpointsFromTemplate. by rewrite Ht. Qed.

Lemma filterByAnnotations_Ok sc labelSelector selector httpProxies :
  ParseToLabelSelector (annotationFilter sc) = Ok labelSelector →
  LabelSelectorAsSelector labelSelector = Ok selector →
  filterByAnnotations sc httpProxies =
  Ok (if selector_Empty selector then httpProxies
      else List.filter (fun hp => selector_Matches selector (Annotations hp))
             httpProxies).
Proof.
  intros Hp Hs. unfold filterByAnnotations. rewrite Hp, Hs.
  destruct (selector_Empty selector); [done|].
  by rewrite (fold_left_filter
                (fun hp => selector_Matches selector (Annotations hp))).
Qed.
End SourceFacts.

(** ** The loop of [Endpoints] *)

Section LoopFacts.
Context `{SourcePackage} `{LabelsLibrary}.

Lemma Endpoints_loop_cons sc hp hps endpoints :
  outcome (Endpoints_loop sc (hp :: hps) endpoints) =
  match outcome (Endpoints_body sc hp) with
  | Ok hpEndpoints => outcome (Endpoints_loop sc hps (endpoints ++ hpEndpoints))
  | Err e => Err e
  end.
Proof. simpl. by rewrite outcome_bind. Qed.

(** Every endpoint the loop returns was there at the start or comes out
    of the iteration of some resource of the list. *)
Lemma Endpoints_loop_elem sc hps endpoints eps ep :
  outcome (Endpoints_loop sc hps endpoints) = Ok eps →
  ep ∈ eps →
  ep ∈ endpoints
  ∨ ∃ hp raw, hp ∈ hps ∧ outcome (Endpoints_body sc hp) = Ok raw ∧ ep ∈ raw.
Proof.
  revert endpoints. induction hps as [|hp hps IH]; intros endpoints.
  - simpl. intros [= <-] Hep. by left.
  - rewrite Endpoints_loop_cons.
    destruct (outcome (Endpoints_body sc hp)) as [raw|e] eqn:Hbody; [|done].
    intros Hloop Hep.
    destruct (IH _ Hloop Hep) as [Hin|(hp' & raw' & Hhp' & Hraw' & Hin)].
    + apply elem_of_app in Hin as [Hin|Hin]; [by left|].
      right. exists hp, raw. split; [apply list_elem_of_here|done].
    + right. exists hp', raw'. split; [by apply list_elem_of_further|done].
Qed.

(** A resource whose iteration appends nothing and does not fail can be
    removed from the list without changing the result. *)
Lemma Endpoints_loop_skip sc hp hps1 hps2 endpoints :
  outcome (Endpoints_body sc hp) = Ok [] →
  outcome (Endpoints_loop sc (hps1 ++ hp :: hps2) endpoints)
  = outcome (Endpoints_loop sc (hps1 ++ hps2) endpoints).
Proof.
  intros Hskip. revert endpoints.
  induction hps1 as [|hp1 hps1 IH]; intros endpoints.
  - simpl app. rewrite Endpoints_loop_cons, Hskip. by rewrite app_nil_r.
  - simpl app. rewrite !Endpoints_loop_cons.
    destruct (outcome (Endpoints_body sc hp1)); [apply IH|done].
Qed.

Lemma filterByAnnotations_elem sc hps hps' hp :
  filterByAnnotations sc hps = Ok hps' → hp ∈ hps' → hp ∈ hps.
Proof.
  unfold filterByAnnotations.
  destruct (ParseToLabelSelector (annotationFilter sc)) as [ls|]; [|done].
  destruct (LabelSelectorAsSelector ls) as [sel|]; [|done].
  destruct (selector_Empty sel); intros [= <-]; [done|].
  rewrite (fold_left_filter
             (fun hp => selector_Matches sel (Annotations hp))). simpl.
  rewrite list_elem_of_In, filter_In, <- list_elem_of_In. tauto.
Qed.

(** The outcome of [Endpoints] in terms of its three stages. *)
Lemma Endpoints_outcome sc :
  outcome (Endpoints sc) =
  match httpProxyInformer sc (namespace sc) with
  | Err err => Err err
  | Ok hps =>
      match filterByAnnotations sc hps with
      | Err err => Err err
      | Ok hps =>
          match outcome (Endpoints_loop sc hps []) with
          | Ok endpoints => Ok (sortAll endpoints)
          | Err err => Err err
          end
      end
  end.
Proof.
  unfold Endpoints. rewrite emit_bind. unfold outcome at 1. simpl.
  destruct (httpProxyInformer sc (namespace sc)) as [hps|]; [|done].
  destruct (filterByAnnotations sc hps) as [hps'|]; [|done].
  rewrite outcome_bind. by destruct (outcome (Endpoints_loop sc hps' [])).
Qed.

(** What an iteration returns carries the label of its resource. *)
Lemma Endpoints_body_label sc hp raw ep :
  outcome (Endpoints_body sc hp) = Ok raw → ep ∈ raw →
  Labels ep !! ResourceLabelKey = Some (resourceLabel hp).
Proof.
  unfold Endpoints_body.
  destruct (controllerMismatch hp).
  { rewrite emit_bind. simpl. intros [= <-] Hin. by apply elem_of_nil in Hin. }
  destruct (negb (CurrentStatus (Status_ hp) =? "valid")).
  { rewrite emit_bind. simpl. intros [= <-] Hin. by apply elem_of_nil in Hin. }
  unfold Endpoints_generate. rewrite outcome_bind.
  destruct (outcome (endpointsFromHttpProxy sc hp)) as [eps0|]; [|done].
  rewrite outcome_bind.
  match goal with |- context [outcome ?m] => destruct (outcome m) as [eps1|] end;
    [|done].
  destruct (length eps1 =? 0)%nat; rewrite emit_bind; simpl; intros [= <-] Hin.
  { by apply elem_of_nil in Hin. }
  unfold setResourceLabel in Hin.
  apply list_elem_of_fmap in Hin as (ep0 & -> & _). simpl.
  apply lookup_insert_eq.
Qed.
End LoopFacts.

(** ** Traces *)

Lemma Forall_trace_bind {A B} (P : Event → Prop) (m : M A) (k : A → M B) :
  Forall P (trace m) → (∀ a, Forall P (trace (k a))) →
  Forall P (trace (bind m k)).
Proof.
  intros Hm Hk. rewrite trace_bind. apply Forall_app. split; [done|].
  destruct (outcome m); [apply Hk|constructor].
Qed.

Section TraceFacts.
Context `{SourcePackage} `{LabelsLibrary}.

Lemma trace_warnIfError err : Forall lookupOrWarning (trace (warnIfError err)).
Proof. destruct err; repeat constructor. Qed.

Lemma trace_targetsFromContourLoadBalancer sc :
  Forall lookupOrWarning (trace (targetsFromContourLoadBalancer sc)).
Proof.
  unfold targetsFromContourLoadBalancer.
  destruct (parseContourLoadBalancerService _) as [[ns name]|]; [|constructor].
  rewrite emit_bind.
  destruct (kubeClient sc ns name); [|rewrite emit_bind]; repeat constructor.
Qed.

Lemma trace_resolveTargets sc hp :
  Forall lookupOrWarning (trace (resolveTargets sc hp)).
Proof.
  unfold resolveTargets.
  destruct (length _ =? 0)%nat;
    [apply trace_targetsFromContourLoadBalancer|constructor].
Qed.

Lemma trace_endpointsFromHttpProxy sc hp :
  Forall lookupOrWarning (trace (endpointsFromHttpProxy sc hp)).
Proof.
  unfold endpointsFromHttpProxy.
  destruct (negb (CurrentStatus (Status_ hp) =? "valid")).
  { rewrite emit_bind. repeat constructor. }
  destruct (getTTLFromAnnotations (Annotations hp)) as [ttl err].
  apply Forall_trace_bind; [apply trace_warnIfError|intros _].
  apply Forall_trace_bind; [apply trace_resolveTargets|intros targets].
  destruct (getProviderSpecificAnnotations (Annotations hp)). constructor.
Qed.

Lemma trace_endpointsFromTemplate sc tmpl hp :
  ∃ t, trace (endpointsFromTemplate sc tmpl hp) = ExecuteTemplate hp :: t
       ∧ Forall lookupOrWarning t.
Proof.
  unfold endpointsFromTemplate. rewrite emit_bind.
  eexists; split; [reflexivity|].
  destruct (tmpl hp); [|constructor].
  destruct (getTTLFromAnnotations (Annotations hp)) as [ttl err].
  apply Forall_trace_bind; [apply trace_warnIfError|intros _].
  apply Forall_trace_bind; [apply trace_resolveTargets|intros targets].
  destruct (getProviderSpecificAnnotations (Annotations hp)). constructor.
Qed.

Lemma not_lookupOrWarning_ExecuteTemplate t hp :
  Forall lookupOrWarning t → ExecuteTemplate hp ∉ t.
Proof.
  intros Ht Hin. rewrite Forall_forall in Ht. exact (Ht _ Hin).
Qed.

(** The loop does not depend on the snapshot the source would list. *)
Lemma Endpoints_loop_withHTTPProxies sc l hps endpoints :
  Endpoints_loop (withHTTPProxies sc l) hps endpoints
  = Endpoints_loop sc hps endpoints.
Proof.
  revert endpoints. induction hps as [|hp hps IH]; intros endpoints; [done|].
  simpl. change (Endpoints_body (withHTTPProxies sc l) hp)
           with (Endpoints_body sc hp).
  apply bind_ext. intros a. apply IH.
Qed.
End TraceFacts.

(** ** The template stage *)

Section TemplateFacts.
Context `{SourcePackage} `{LabelsLibrary}.

Lemma rendersTemplate_cond sc eps tmpl :
  fqdnTemplate sc = Some tmpl →
  (combineFQDNAnnotation sc || (length eps =? 0)%nat = true)
  ↔ rendersTemplate sc eps.
Proof.
  intros Htmpl. unfold rendersTemplate. rewrite Htmpl.
  rewrite orb_true_iff, Nat.eqb_eq, length_zero_iff_nil.
  split; [intros ?; split; [by eexists|done]|by intros [_ ?]].
Qed.

Lemma trace_final_stage (hp : HTTPProxy) (eps : list Endpoint) hp' :
  ExecuteTemplate hp' ∉
    trace (if (length eps =? 0)%nat
           then run emit (Debugf "No endpoints could be generated from httpproxy %s/%s" hp) ;;
                ret []
           else run emit (Debugf "Endpoints generated from httpproxy: %s/%s: %v" hp) ;;
                ret (setResourceLabel hp eps)).
Proof.
  destruct (length eps =? 0)%nat; rewrite emit_bind; unfold trace; simpl;
    intros Hin; apply list_elem_of_singleton in Hin; discriminate.
Qed.

(** When the primary path succeeds, the template is executed in the
    iteration exactly under [rendersTemplate], and only on the resource
    of the iteration. *)
Lemma Endpoints_generate_executes sc hp hp' t eps :
  endpointsFromHttpProxy sc hp = (t, Ok eps) →
  ExecuteTemplate hp' ∈ trace (Endpoints_generate sc hp)
  ↔ hp' = hp ∧ rendersTemplate sc eps.
Proof.
  intros Hprimary. unfold Endpoints_generate.
  rewrite (bind_Ok _ _ t eps Hprimary). unfold trace at 1. cbn [fst].
  rewrite elem_of_app.
  assert (ExecuteTemplate hp' ∉ t) as Hquiet.
  { apply not_lookupOrWarning_ExecuteTemplate.
    pose proof (trace_endpointsFromHttpProxy sc hp) as Ht.
    rewrite Hprimary in Ht. exact Ht. }
  rewrite trace_bind, elem_of_app.
  match goal with
  | |- _ ∨ (_ ∨ _ ∈ match outcome ?m with _ => _ end) ↔ _ =>
      set (stage := m);
      assert (ExecuteTemplate hp' ∉
                match outcome stage with
                | Ok a => trace (if (length a =? 0)%nat
                    then run emit (Debugf "No endpoints could be generated from httpproxy %s/%s" hp) ;; ret []
                    else run emit (Debugf "Endpoints generated from httpproxy: %s/%s: %v" hp) ;; ret (setResourceLabel hp a))
                | Err _ => []
                end) as Hfinal
  end.
  { destruct (outcome stage); [apply trace_final_stage|apply not_elem_of_nil]. }
  assert (ExecuteTemplate hp' ∈ trace stage ↔ hp' = hp ∧ rendersTemplate sc eps)
    as Hstage.
  { subst stage. destruct (fqdnTemplate sc) as [tmpl|] eqn:Htmpl.
    - pose proof (rendersTemplate_cond sc eps tmpl Htmpl) as Hcond.
      destruct (combineFQDNAnnotation sc || (length eps =? 0)%nat).
      + rewrite trace_bind.
        destruct (trace_endpointsFromTemplate sc tmpl hp) as (q & -> & Hq).
        assert (∀ r : result (list Endpoint),
                  match r with
                  | Ok a => trace (ret (if combineFQDNAnnotation sc
                                        then eps ++ a else a))
                  | Err _ => []
                  end = []) as -> by by intros [].
        rewrite app_nil_r, elem_of_cons.
        pose proof (not_lookupOrWarning_ExecuteTemplate q hp' Hq).
        split.
        * intros [[= ->]|?]; [|done]. split; [done|by apply Hcond].
        * intros [-> _]. by left.
      + unfold trace, ret; simpl. split; [by intros ?%elem_of_nil|].
        intros [_ Hr]. apply Hcond in Hr. discriminate.
    - unfold trace, ret; simpl. split; [by intros ?%elem_of_nil|].
      intros [_ [[x Hx] _]]. congruence. }
  tauto.
Qed.

(** The result of the generation path, by cases on the template stage. *)
Lemma Endpoints_generate_outcome sc hp :
  outcome (Endpoints_generate sc hp) =
  match outcome (endpointsFromHttpProxy sc hp) with
  | Err e => Err e
  | Ok eps =>
      match fqdnTemplate sc with
      | Some tmpl =>
          if combineFQDNAnnotation sc || (length eps =? 0)%nat then
            match outcome (endpointsFromTemplate sc tmpl hp) with
            | Ok teps =>
                Ok (setResourceLabel hp
                      (if combineFQDNAnnotation sc then eps ++ teps else teps))
            | Err e => Err e
            end
          else Ok (setResourceLabel hp eps)
      | None => Ok (setResourceLabel hp eps)
      end
  end.
Proof.
  assert (∀ eps : list Endpoint,
            outcome (if (length eps =? 0)%nat
              then run emit (Debugf "No endpoints could be generated from httpproxy %s/%s" hp) ;; ret []
              else run emit (Debugf "Endpoints generated from httpproxy: %s/%s: %v" hp) ;; ret (setResourceLabel hp eps))
            = Ok (setResourceLabel hp eps)) as Hfinal.
  { intros [|ep eps]; by rewrite emit_bind. }
  unfold Endpoints_generate. rewrite outcome_bind.
  destruct (outcome (endpointsFromHttpProxy sc hp)) as [eps|]; [|done].
  rewrite outcome_bind.
  destruct (fqdnTemplate sc) as [tmpl|]; [|apply Hfinal].
  destruct (combineFQDNAnnotation sc || (length eps =? 0)%nat);
    [|apply Hfinal].
  rewrite outcome_bind.
  destruct (outcome (endpointsFromTemplate sc tmpl hp)); [|done].
  apply Hfinal.
Qed.
End TemplateFacts.

(** ** Debug lines of the generation path *)

Section DebugFacts.
Context `{SourcePackage}.

Lemma not_lookupOrWarning_Debugf t format hp :
  Forall lookupOrWarning t → Debugf format hp ∉ t.
Proof.
  intros Ht Hin. rewrite Forall_forall in Ht. exact (Ht _ Hin).
Qed.

(** The generation path logs at debug level only at its end, and then
    about the endpoints of the resource, never about skipping it. *)
Lemma Endpoints_generate_debug sc hp format hp' :
  Debugf format hp' ∈ trace (Endpoints_generate sc hp) →
  hp' = hp
  ∧ (format = "No endpoints could be generated from httpproxy %s/%s"
     ∨ format = "Endpoints generated from httpproxy: %s/%s: %v").
Proof.
  unfold Endpoints_generate. rewrite trace_bind, elem_of_app.
  intros [Hin|Hin].
  { by apply not_lookupOrWarning_Debugf in Hin;
      [|apply trace_endpointsFromHttpProxy]. }
  destruct (outcome (endpointsFromHttpProxy sc hp)) as [eps|];
    [|by apply elem_of_nil in Hin].
  rewrite trace_bind, elem_of_app in Hin. destruct Hin as [Hin|Hin].
  - exfalso. destruct (fqdnTemplate sc) as [tmpl|];
      [|by apply elem_of_nil in Hin].
    destruct (combineFQDNAnnotation sc || (length eps =? 0)%nat);
      [|by apply elem_of_nil in Hin].
    rewrite trace_bind in Hin.
    destruct (trace_endpointsFromTemplate sc tmpl hp) as (q & Hq & Hquiet).
    rewrite Hq in Hin.
    assert (∀ r : result (list Endpoint),
              match r with
              | Ok a => trace (ret (if combineFQDNAnnotation sc
                                    then eps ++ a else a))
              | Err _ => []
              end = []) as Hnil by by intros [].
    rewrite Hnil, app_nil_r in Hin.
    apply elem_of_cons in Hin as [[=]|Hin].
    by apply not_lookupOrWarning_Debugf in Hin.
  - match type of Hin with
    | _ ∈ match outcome ?m with _ => _ end => destruct (outcome m) as [eps'|]
    end; [|by apply elem_of_nil in Hin].
    destruct (length eps' =? 0)%nat; rewrite emit_bind in Hin;
      apply list_elem_of_singleton in Hin; injection Hin as -> ->; auto.
Qed.
End DebugFacts.

(** ** Template failures *)

Section TemplateErrors.
Context `{SourcePackage} `{LabelsLibrary}.

Lemma Endpoints_body_template_error sc tmpl hp hp' err :
  fqdnTemplate sc = Some tmpl → tmpl hp' = Err err →
  ExecuteTemplate hp' ∈ trace (Endpoints_body sc hp) →
  outcome (Endpoints_body sc hp) = Err (templateError hp' err).
Proof.
  intros Htmpl Herr. unfold Endpoints_body.
  destruct (controllerMismatch hp).
  { rewrite emit_bind. unfold trace; simpl.
    intros Hin. apply list_elem_of_singleton in Hin. discriminate. }
  destruct (negb (CurrentStatus (Status_ hp) =? "valid")).
  { rewrite emit_bind. unfold trace; simpl.
    intros Hin. apply list_elem_of_singleton in Hin. discriminate. }
  destruct (endpointsFromHttpProxy sc hp) as [t [eps|e]] eqn:Hprimary.
  - rewrite (Endpoints_generate_executes sc hp hp' t eps Hprimary).
    intros [-> Hrenders].
    rewrite Endpoints_generate_outcome, Hprimary, Htmpl. cbn [outcome snd].
    apply (rendersTemplate_cond sc eps tmpl Htmpl) in Hrenders as ->.
    by rewrite (endpointsFromTemplate_Err sc tmpl hp err Herr).
  - unfold Endpoints_generate. rewrite (bind_Err _ _ t e Hprimary).
    intros Hin. exfalso.
    apply (not_lookupOrWarning_ExecuteTemplate t hp'); [|exact Hin].
    pose proof (trace_endpointsFromHttpProxy sc hp) as Ht.
    rewrite Hprimary in Ht. exact Ht.
Qed.

Lemma Endpoints_loop_template_error sc tmpl hps endpoints hp' err :
  fqdnTemplate sc = Some tmpl → tmpl hp' = Err err →
  ExecuteTemplate hp' ∈ trace (Endpoints_loop sc hps endpoints) →
  outcome (Endpoints_loop sc hps endpoints) = Err (templateError hp' err).
Proof.
  intros Htmpl Herr. revert endpoints.
  induction hps as [|hp hps IH]; intros endpoints.
  - intros Hin. by apply elem_of_nil in Hin.
  - rewrite Endpoints_loop_cons. simpl Endpoints_loop.
    rewrite trace_bind, elem_of_app. intros [Hin|Hin].
    + by rewrite (Endpoints_body_template_error sc tmpl hp hp' err).
    + destruct (outcome (Endpoints_body sc hp)) as [a|e].
      * by apply IH.
      * by apply elem_of_nil in Hin.
Qed.

(** The trace of [Endpoints]: the listing, then the loop if the listing
    and the filter succeed. *)
Lemma Endpoints_trace sc :
  trace (Endpoints sc) =
  ListHTTPProxies (namespace sc) ::
  match httpProxyInformer sc (namespace sc) with
  | Err _ => []
  | Ok hps =>
      match filterByAnnotations sc hps with
      | Err _ => []
      | Ok hps => trace (Endpoints_loop sc hps [])
      end
  end.
Proof.
  unfold Endpoints. rewrite emit_bind. unfold trace at 1. cbn [fst].
  f_equal.
  destruct (httpProxyInformer sc (namespace sc)) as [hps|]; [|done].
  destruct (filterByAnnotations sc hps) as [hps'|]; [|done].
  rewrite trace_bind.
  destruct (outcome (Endpoints_loop sc hps' [])); by rewrite app_nil_r.
Qed.
End TemplateErrors.

(** ** Strings *)

Section StringFacts.
Import strings.

Lemma app_String a s t : String a s +:+ t = String a (s +:+ t).
Proof. reflexivity. Qed.

Lemma app_empty_l t : "" +:+ t = t.
Proof. reflexivity. Qed.

Lemma HasSuffix_app q c : HasSuffix (q +:+ String c "") c = true.
Proof.
  induction q as [|a q IH].
  - rewrite app_empty_l. simpl. apply Ascii.eqb_refl.
  - rewrite app_String. simpl.
    destruct (q +:+ String c "") eqn:Hq; [|exact IH].
    by destruct q.
Qed.

Lemma HasSuffix_inv s c : HasSuffix s c = true → ∃ q, s = q +:+ String c "".
Proof.
  induction s as [|a s IH]; [done|]. simpl.
  destruct s as [|b s].
  - intros ->%Ascii.eqb_eq. by exists "".
  - intros Hs. destruct (IH Hs) as [q ->]. by exists (String a q).
Qed.

Lemma TrimSuffix_app q c : TrimSuffix (q +:+ String c "") c = q.
Proof.
  induction q as [|a q IH].
  - rewrite app_empty_l. simpl. by rewrite Ascii.eqb_refl.
  - rewrite app_String. simpl.
    destruct (q +:+ String c "") eqn:Hq; [by destruct q|].
    by rewrite IH.
Qed.

Lemma TrimSuffix_id s c : HasSuffix s c = false → TrimSuffix s c = s.
Proof.
  induction s as [|a s IH]; [done|]. simpl.
  destruct s as [|b s].
  - by intros ->.
  - intros Hs. by rewrite IH.
Qed.

(** After one trim the string still ends in [c] exactly when it ended
    in two of them. *)
Lemma HasSuffix_TrimSuffix s c :
  HasSuffix (TrimSuffix s c) c = true
  ↔ ∃ q, s = q +:+ String c (String c "").
Proof.
  split.
  - intros Hh. destruct (HasSuffix s c) eqn:Hs.
    + apply HasSuffix_inv in Hs as [q' ->].
      rewrite TrimSuffix_app in Hh.
      apply HasSuffix_inv in Hh as [q ->].
      exists q. clear. induction q as [|a q IH]; [done|].
      by rewrite !app_String, IH.
    + rewrite TrimSuffix_id in Hh by done. congruence.
  - intros [q ->].
    assert (q +:+ String c (String c "") = (q +:+ String c "") +:+ String c "")
      as ->.
    { induction q as [|a q IH]; [done|]. by rewrite !app_String, IH. }
    rewrite TrimSuffix_app. apply HasSuffix_app.
Qed.

Lemma ContainsByte_app s t d :
  ContainsByte (s +:+ t) d = ContainsByte s d || ContainsByte t d.
Proof.
  induction s as [|a s IH]; [done|].
  rewrite app_String. simpl. by rewrite IH, orb_assoc.
Qed.

Lemma ContainsByte_TrimSuffix s c d :
  ContainsByte s d = false → ContainsByte (TrimSuffix s c) d = false.
Proof.
  destruct (HasSuffix s c) eqn:Hs.
  - apply HasSuffix_inv in Hs as [q ->].
    rewrite TrimSuffix_app, ContainsByte_app.
    by intros [-> _]%orb_false_iff.
  - by rewrite TrimSuffix_id.
Qed.

Lemma ContainsByte_ReplaceAllEmpty s c :
  ContainsByte (ReplaceAllEmpty s c) c = false.
Proof.
  induction s as [|a s IH]; [done|]. simpl.
  destruct (Ascii.eqb a c) eqn:Ha; [done|]. simpl. by rewrite Ha.
Qed.

(** Splitting neither leaves the separator in a piece nor brings in a
    byte the string did not have. *)
Lemma ContainsByte_Split s sep d p :
  p ∈ Split s sep →
  ContainsByte p sep = false
  ∧ (ContainsByte s d = false → ContainsByte p d = false).
Proof.
  revert p. induction s as [|a s IH]; intros p; simpl.
  - intros ->%list_elem_of_singleton. done.
  - destruct (Ascii.eqb a sep) eqn:Ha.
    + intros [->|Hp]%elem_of_cons; [done|].
      destruct (IH p Hp) as [H1 H2]. split; [done|].
      intros [_ ?]%orb_false_iff. auto.
    + destruct (Split s sep) as [|h t] eqn:Hsplit.
      * intros ->%list_elem_of_singleton. simpl. rewrite Ha. split; [done|].
        by intros [-> _]%orb_false_iff.
      * intros [->|Hp]%elem_of_cons.
        -- destruct (IH h (list_elem_of_here _ _)) as [H1 H2]. simpl.
           rewrite Ha, H1. split; [done|].
           intros [-> ?]%orb_false_iff. auto.
        -- destruct (IH p (list_elem_of_further _ _ _ Hp)) as [H1 H2].
           split; [done|]. intros [_ ?]%orb_false_iff. auto.
Qed.
End StringFacts.

(** ** The TTL of the assembled endpoints *)

Section TTLFacts.
Context `{SourcePackage}.

Lemma outcome_warnIfError err : outcome (warnIfError err) = Ok tt.
Proof. by destruct err. Qed.

Lemma outcome_resolveTargets_Err sc hp e :
  outcome (resolveTargets sc hp) = Err e →
  parseContourLoadBalancerService (contourLoadBalancerService sc) = Err e.
Proof.
  unfold resolveTargets. destruct (length _ =? 0)%nat; [|done].
  unfold targetsFromContourLoadBalancer.
  destruct (parseContourLoadBalancerService _) as [[ns name]|e'];
    [|by intros [= ->]].
  rewrite emit_bind. destruct (kubeClient sc ns name); [done|].
  by rewrite emit_bind.
Qed.

(** The outcome of a path that warns, resolves the targets and
    assembles. *)
Lemma outcome_assembling sc hp err (f : Targets → list Endpoint) :
  outcome (run warnIfError err ;;
           do targets <- resolveTargets sc hp ;; ret (f targets))
  = match outcome (resolveTargets sc hp) with
    | Ok targets => Ok (f targets)
    | Err e => Err e
    end.
Proof.
  rewrite outcome_bind, outcome_warnIfError, outcome_bind.
  by destruct (outcome (resolveTargets sc hp)).
Qed.

Lemma assemble_TTL hp targets ttl hostnames :
  keepsTTL → Forall (fun ep => RecordTTL ep = ttl) (assemble hp targets ttl hostnames).
Proof.
  intros Hkeep. apply Forall_forall. intros ep Hep.
  unfold assemble in Hep.
  apply list_elem_of_In, in_flat_map in Hep as (hostname & _ & Hep).
  apply list_elem_of_In in Hep. by apply Hkeep in Hep.
Qed.

Lemma endpointsFromHttpProxy_TTL sc hp eps :
  keepsTTL → CurrentStatus (Status_ hp) = "valid" →
  outcome (endpointsFromHttpProxy sc hp) = Ok eps →
  Forall (fun ep => RecordTTL ep = (getTTLFromAnnotations (Annotations hp)).1) eps.
Proof.
  intros Hkeep Hvalid.
  rewrite (endpointsFromHttpProxy_valid sc hp Hvalid), outcome_assembling.
  destruct (outcome (resolveTargets sc hp)); [|done].
  intros [= <-]. by apply assemble_TTL.
Qed.

Lemma endpointsFromTemplate_TTL sc tmpl hp eps :
  keepsTTL →
  outcome (endpointsFromTemplate sc tmpl hp) = Ok eps →
  Forall (fun ep => RecordTTL ep = (getTTLFromAnnotations (Annotations hp)).1) eps.
Proof.
  intros Hkeep. destruct (tmpl hp) as [rendered|e] eqn:Hrender.
  - rewrite (endpointsFromTemplate_Ok sc tmpl hp rendered Hrender).
    rewrite emit_bind. unfold outcome at 1. cbn [snd].
    rewrite outcome_assembling.
    destruct (outcome (resolveTargets sc hp)); [|done].
    intros [= <-]. by apply assemble_TTL.
  - by rewrite (endpointsFromTemplate_Err sc tmpl hp e Hrender).
Qed.

Lemma endpointsFromTemplate_outcome_Err sc tmpl hp e :
  outcome (endpointsFromTemplate sc tmpl hp) = Err e →
  is_Err (tmpl hp) = true
  ∨ parseContourLoadBalancerService (contourLoadBalancerService sc) = Err e.
Proof.
  destruct (tmpl hp) as [rendered|e'] eqn:Hrender; [|by left].
  rewrite (endpointsFromTemplate_Ok sc tmpl hp rendered Hrender).
  rewrite emit_bind. unfold outcome at 1. cbn [snd].
  rewrite outcome_assembling.
  destruct (outcome (resolveTargets sc hp)) eqn:Hr; [done|].
  intros [= ->]. right. by apply (outcome_resolveTargets_Err sc hp).
Qed.

Lemma setResourceLabel_TTL hp eps ttl :
  Forall (fun ep => RecordTTL ep = ttl) eps →
  Forall (fun ep => RecordTTL ep = ttl) (setResourceLabel hp eps).
Proof.
  intros Heps. unfold setResourceLabel. apply Forall_fmap.
  eapply Forall_impl; [exact Heps|]. by intros ep.
Qed.
End TTLFacts.

(** ** The instance of [Model] meets what is asked of the helpers *)

Lemma Model_unsetOnError :
  unsetOnError (H := Model.sourcePackage) Model.ttlNotConfigured.
Proof.
  intros annotations ttl err. simpl. unfold Model.getTTLFromAnnotations.
  destruct (annotations !! Model.ttlAnnotationKey) as [v|]; [|done].
  destruct (Model.parseTTL v); [done|]. by intros [= <- _].
Qed.

Lemma Model_keepsTTL : keepsTTL (H := Model.sourcePackage).
Proof.
  intros hostname targets ttl ps si ep. simpl.
  unfold Model.endpointsForHostname. rewrite elem_of_app.
  intros [Hep|Hep].
  - destruct (0 <? _)%nat; [|by apply elem_of_nil in Hep].
    by apply list_elem_of_singleton in Hep as ->.
  - destruct (0 <? _)%nat; [|by apply elem_of_nil in Hep].
    by apply list_elem_of_singleton in Hep as ->.
Qed.

Lemma Model_emptySelectorMatchesAll :
  emptySelectorMatchesAll (H := Model.labelsLibrary).
Proof. intros [|kv sel] labels; simpl; [done|discriminate]. Qed.

(** ** Sorting the targets *)

Lemma sortTargets_sorted (ts : Targets) : StronglySorted String.le (sortTargets ts).
Proof. apply StronglySorted_merge_sort; apply _. Qed.

Lemma sortTargets_Permutation (ts1 ts2 : Targets) :
  ts1 ≡ₚ ts2 → sortTargets ts1 = sortTargets ts2.
Proof.
  intros Hp. apply (StronglySorted_unique String.le).
  - apply sortTargets_sorted.
  - apply sortTargets_sorted.
  - unfold sortTargets. by rewrite !merge_sort_Permutation.
Qed.

Lemma sortAll_sameUpToTargetOrder (eps1 eps2 : list Endpoint) :
  Forall2 sameUpToTargetOrder eps1 eps2 → sortAll eps1 = sortAll eps2.
Proof.
  induction 1 as [|ep1 ep2 eps1 eps2 [Hfields Htargets] _ IH]; [done|].
  simpl. rewrite IH. f_equal.
  rewrite (sortTargets_Permutation _ _ Htargets).
  unfold withTargets in *. injection Hfields as -> -> -> -> -> ->. done.
Qed.

(** ** Two runs against load balancers that list the same ingress *)

Lemma related_bind {A B} (R : A → A → Prop) (S : B → B → Prop)
    (m1 m2 : M A) (k1 k2 : A → M B) :
  related R (outcome m1) (outcome m2) →
  (∀ a1 a2, R a1 a2 → related S (outcome (k1 a1)) (outcome (k2 a2))) →
  related S (outcome (bind m1 k1)) (outcome (bind m2 k2)).
Proof.
  intros Hm Hk. rewrite !outcome_bind.
  destruct (outcome m1), (outcome m2); simpl in *; try done. by apply Hk.
Qed.


Section Reordering.
Context `{SourcePackage} `{LabelsLibrary}.
Variable sc : httpProxySource.
Variable client : string → string → result Service.
Hypothesis client_sameIngress :
  ∀ ns name, sameIngress (kubeClient sc ns name) (client ns name).
Hypothesis assembler : respectsTargetOrder.

Let sc' := withKubeClient sc client.

Lemma targetsFromContourLoadBalancer_reordered :
  related Permutation (outcome (targetsFromContourLoadBalancer sc))
    (outcome (targetsFromContourLoadBalancer sc')).
Proof.
  unfold targetsFromContourLoadBalancer. cbn [sc' withKubeClient
    contourLoadBalancerService kubeClient].
  destruct (parseContourLoadBalancerService _) as [[ns name]|e]; [|done].
  rewrite !emit_bind. pose proof (client_sameIngress ns name) as Hsame.
  destruct (kubeClient sc ns name) as [svc1|], (client ns name) as [svc2|];
    try done; rewrite ?emit_bind.
  - unfold outcome, ret. cbn [snd related].
    rewrite !ingressTargets_flat_map. simpl. by apply Permutation_flat_map.
  - simpl. constructor.
Qed.

Lemma resolveTargets_reordered hp :
  related Permutation (outcome (resolveTargets sc hp))
    (outcome (resolveTargets sc' hp)).
Proof.
  unfold resolveTargets.
  destruct (length _ =? 0)%nat; [apply targetsFromContourLoadBalancer_reordered|].
  simpl. reflexivity.
Qed.

Lemma assemble_reordered hp targets1 targets2 ttl hostnames :
  targets1 ≡ₚ targets2 →
  Forall2 sameUpToTargetOrder (assemble hp targets1 ttl hostnames)
    (assemble hp targets2 ttl hostnames).
Proof.
  intros Hp. unfold assemble.
  induction hostnames as [|hostname hostnames IH]; simpl; [constructor|].
  apply Forall2_app; [by apply assembler|exact IH].
Qed.

Lemma assembling_reordered hp err ttl hostnames :
  related (Forall2 sameUpToTargetOrder)
    (outcome (run warnIfError err ;;
              do targets <- resolveTargets sc hp ;;
              ret (assemble hp targets ttl hostnames)))
    (outcome (run warnIfError err ;;
              do targets <- resolveTargets sc' hp ;;
              ret (assemble hp targets ttl hostnames))).
Proof.
  rewrite !(outcome_assembling _ hp err
              (fun targets => assemble hp targets ttl hostnames)).
  pose proof (resolveTargets_reordered hp) as Hr.
  destruct (outcome (resolveTargets sc hp)),
    (outcome (resolveTargets sc' hp)); simpl in *; try done.
  by apply assemble_reordered.
Qed.

Lemma endpointsFromHttpProxy_reordered hp :
  related (Forall2 sameUpToTargetOrder)
    (outcome (endpointsFromHttpProxy sc hp))
    (outcome (endpointsFromHttpProxy sc' hp)).
Proof.
  destruct (String.eqb_spec (CurrentStatus (Status_ hp)) "valid") as [Hv|Hv].
  - rewrite !endpointsFromHttpProxy_valid by done.
    apply assembling_reordered.
  - apply String.eqb_neq in Hv. unfold endpointsFromHttpProxy. rewrite Hv.
    simpl. constructor.
Qed.

Lemma endpointsFromTemplate_reordered tmpl hp :
  related (Forall2 sameUpToTargetOrder)
    (outcome (endpointsFromTemplate sc tmpl hp))
    (outcome (endpointsFromTemplate sc' tmpl hp)).
Proof.
  destruct (tmpl hp) as [rendered|e] eqn:Hrender.
  - rewrite !(endpointsFromTemplate_Ok _ tmpl hp rendered Hrender).
    rewrite !emit_bind. unfold outcome at 1 3. cbn [snd].
    apply assembling_reordered.
  - by rewrite !(endpointsFromTemplate_Err _ tmpl hp e Hrender).
Qed.

Lemma setResourceLabel_reordered hp eps1 eps2 :
  Forall2 sameUpToTargetOrder eps1 eps2 →
  Forall2 sameUpToTargetOrder (setResourceLabel hp eps1)
    (setResourceLabel hp eps2).
Proof.
  intros Heps. unfold setResourceLabel. apply Forall2_fmap.
  eapply Forall2_impl; [exact Heps|].
  intros ep1 ep2 [Hfields Htargets]. split; [|done].
  unfold withTargets, withLabel in *. simpl.
  injection Hfields as -> -> -> -> -> ->. done.
Qed.

Lemma Endpoints_body_reordered hp :
  related (Forall2 sameUpToTargetOrder)
    (outcome (Endpoints_body sc hp)) (outcome (Endpoints_body sc' hp)).
Proof.
  unfold Endpoints_body.
  destruct (controllerMismatch hp); [simpl; constructor|].
  destruct (negb (CurrentStatus (Status_ hp) =? "valid")); [simpl; constructor|].
  rewrite !Endpoints_generate_outcome.
  cbn [sc' withKubeClient fqdnTemplate combineFQDNAnnotation].
  pose proof (endpointsFromHttpProxy_reordered hp) as Hprimary.
  fold sc'.
  destruct (outcome (endpointsFromHttpProxy sc hp)) as [eps1|],
    (outcome (endpointsFromHttpProxy sc' hp)) as [eps2|]; simpl in Hprimary;
    try done.
  rewrite <- (Forall2_length _ _ _ Hprimary).
  destruct (fqdnTemplate sc) as [tmpl|];
    [|by apply setResourceLabel_reordered].
  destruct (combineFQDNAnnotation sc || (length eps1 =? 0)%nat) eqn:Hcond;
    [|by apply setResourceLabel_reordered].
  pose proof (endpointsFromTemplate_reordered tmpl hp) as Htmpl.
  destruct (outcome (endpointsFromTemplate sc tmpl hp)) as [teps1|],
    (outcome (endpointsFromTemplate sc' tmpl hp)) as [teps2|]; simpl in Htmpl;
    try done.
  apply setResourceLabel_reordered.
  destruct (combineFQDNAnnotation sc); [by apply Forall2_app|done].
Qed.

Lemma Endpoints_loop_reordered hps endpoints1 endpoints2 :
  Forall2 sameUpToTargetOrder endpoints1 endpoints2 →
  related (Forall2 sameUpToTargetOrder)
    (outcome (Endpoints_loop sc hps endpoints1))
    (outcome (Endpoints_loop sc' hps endpoints2)).
Proof.
  revert endpoints1 endpoints2.
  induction hps as [|hp hps IH]; intros endpoints1 endpoints2 Hacc; [done|].
  rewrite !Endpoints_loop_cons.
  pose proof (Endpoints_body_reordered hp) as Hbody.
  destruct (outcome (Endpoints_body sc hp)) as [eps1|],
    (outcome (Endpoints_body sc' hp)) as [eps2|]; simpl in Hbody; try done.
  apply IH. by apply Forall2_app.
Qed.

Lemma Endpoints_reordered : outcome (Endpoints sc') = outcome (Endpoints sc).
Proof.
  rewrite !Endpoints_outcome. unfold sc'.
  cbn [withKubeClient httpProxyInformer namespace].
  destruct (httpProxyInformer sc (namespace sc)) as [hps|]; [|done].
  change (filterByAnnotations (withKubeClient sc client) hps)
    with (filterByAnnotations sc hps).
  destruct (filterByAnnotations sc hps) as [hps'|]; [|done].
  fold sc'.
  pose proof (Endpoints_loop_reordered hps' [] [] (List.Forall2_nil _)) as Hloop.
  destruct (outcome (Endpoints_loop sc hps' [])) as [eps1|],
    (outcome (Endpoints_loop sc' hps' [])) as [eps2|]; simpl in Hloop;
    try done; [|by subst].
  f_equal. symmetry. by apply sortAll_sameUpToTargetOrder.
Qed.
End Reordering.

Lemma Permutation_List_filter {X} (p : X → bool) (l1 l2 : list X) :
  l1 ≡ₚ l2 → List.filter p l1 ≡ₚ List.filter p l2.
Proof.
  induction 1 as [|x l1 l2 _ IH|x y l|l1 l2 l3 _ IH1 _ IH2]; simpl.
  - done.
  - destruct (p x); [by constructor|done].
  - destruct (p x), (p y); try done. apply perm_swap.
  - by etrans.
Qed.

Lemma Model_respectsTargetOrder : respectsTargetOrder (H := Model.sourcePackage).
Proof.
  intros hostname targets1 targets2 ttl ps si Hp. simpl.
  unfold Model.endpointsForHostname.
  pose proof (Permutation_List_filter Model.isIPLiteral _ _ Hp) as Ha.
  pose proof (Permutation_List_filter
                (fun t => negb (Model.isIPLiteral t)) _ _ Hp) as Hc.
  rewrite <- (Permutation_length Ha), <- (Permutation_length Hc).
  apply Forall2_app.
  - destruct (0 <? _)%nat; constructor; [|constructor]. by split.
  - destruct (0 <? _)%nat; constructor; [|constructor]. by split.
Qed.

(** ** Target resolution *)

(** C2. Target resolution is a three-step fallback.  (1) A non-empty
    target list from the annotation is returned as it is and the trace is
    empty: the service is not looked up.  (2) Otherwise the configured
    service is looked up once and the targets are, entry by entry in the
    order of the ingress list, the IP if it is not empty followed by the
    hostname if it is not empty.  (3) A failed lookup is logged and gives
    the empty list with no error. *)
Theorem resolveTargets_fallback `{SourcePackage}
    (sc : httpProxySource) (hp : HTTPProxy) :
  let annotated := getTargetsFromTargetAnnotation (Annotations hp) in
  (annotated ≠ [] → resolveTargets sc hp = ([], Ok annotated))
  ∧ (annotated = [] →
     ∀ ns name,
       parseContourLoadBalancerService (contourLoadBalancerService sc)
         = Ok (ns, name) →
       (∀ svc, kubeClient sc ns name = Ok svc →
          resolveTargets sc hp
          = ([GetService ns name],
             Ok (flat_map ingressEntryTargets (Ingress svc))))
       ∧ (∀ err, kubeClient sc ns name = Err err →
            resolveTargets sc hp = ([GetService ns name; Warn err], Ok []))).
Proof.
  intros annotated. unfold resolveTargets. fold annotated. split.
  - intros Hne. destruct annotated; [done|]. reflexivity.
  - intros -> ns name Hparse. simpl. unfold targetsFromContourLoadBalancer.
    rewrite Hparse. split.
    + intros svc ->. rewrite emit_bind. simpl.
      by rewrite ingressTargets_flat_map.
    + intros err ->. by rewrite emit_bind.
Qed.

Lemma resolveTargets_fallback_witness :
  resolveTargets (H := Model.sourcePackage)
    (Samples.source Samples.withEnvoy "" None false []) Samples.plain
  = ([GetService "projectcontour" "envoy"], Ok ["10.0.0.1"; "lb.example.com"])
  ∧ resolveTargets (H := Model.sourcePackage)
      (Samples.source Samples.withEnvoy "" None false []) Samples.annotated
    = ([], Ok ["1.2.3.4"; "5.6.7.8"])
  ∧ resolveTargets (H := Model.sourcePackage)
      (Samples.source Samples.noService "" None false []) Samples.plain
    = ([GetService "projectcontour" "envoy"; Warn "services not found"], Ok []).
Proof.
  pose proof (resolveTargets_fallback (H := Model.sourcePackage)
                (Samples.source Samples.withEnvoy "" None false [])
                Samples.plain) as [_ Hlb].
  pose proof (resolveTargets_fallback (H := Model.sourcePackage)
                (Samples.source Samples.withEnvoy "" None false [])
                Samples.annotated) as [Hann _].
  pose proof (resolveTargets_fallback (H := Model.sourcePackage)
                (Samples.source Samples.noService "" None false [])
                Samples.plain) as [_ Hno].
  split; [|split].
  - destruct (Hlb eq_refl "projectcontour" "envoy" eq_refl) as [Hok _].
    exact (Hok Samples.envoy eq_refl).
  - apply Hann. vm_compute. discriminate.
  - destruct (Hno eq_refl "projectcontour" "envoy" eq_refl) as [_ Herr].
    exact (Herr "services not found" eq_refl).
Defined.

(** ** Ownership *)

(** C1. Every Endpoint returned by [Endpoints] comes from the iteration of
    one HTTPProxy of the listed snapshot, and its label under the resource
    label key is "hp/<namespace>/<name>" of that HTTPProxy. *)
Theorem Endpoints_resource_label `{SourcePackage} `{LabelsLibrary}
    (sc : httpProxySource) (eps : list Endpoint) (ep : Endpoint) :
  outcome (Endpoints sc) = Ok eps →
  ep ∈ eps →
  ∃ hps hp raw,
    httpProxyInformer sc (namespace sc) = Ok hps ∧ hp ∈ hps
    ∧ outcome (Endpoints_body sc hp) = Ok raw ∧ ep ∈ sortAll raw
    ∧ Labels ep !! ResourceLabelKey
      = Some ("hp/" +:+ Namespace hp +:+ "/" +:+ Name hp).
Proof.
  rewrite Endpoints_outcome.
  destruct (httpProxyInformer sc (namespace sc)) as [hps|] eqn:Hlist; [|done].
  destruct (filterByAnnotations sc hps) as [hps'|] eqn:Hfilter; [|done].
  destruct (outcome (Endpoints_loop sc hps' [])) as [endpoints|] eqn:Hloop; [|done].
  intros [= <-] Hin. unfold sortAll in Hin.
  apply list_elem_of_fmap in Hin as (ep0 & -> & Hin0).
  destruct (Endpoints_loop_elem _ _ _ _ _ Hloop Hin0)
    as [Hnil|(hp & raw & Hhp & Hraw & Hin)]; [by apply elem_of_nil in Hnil|].
  exists hps, hp, raw. repeat split; try done.
  - by eapply filterByAnnotations_elem.
  - unfold sortAll. apply list_elem_of_fmap. by exists ep0.
  - simpl. by eapply Endpoints_body_label.
Qed.

Lemma Endpoints_resource_label_witness :
  ∃ hps hp raw,
    Ok [Samples.plain; Samples.annotated] = Ok hps ∧ hp ∈ hps
    ∧ outcome (Endpoints_body (H := Model.sourcePackage)
                 (Samples.source Samples.withEnvoy "" None false
                    [Samples.plain; Samples.annotated]) hp) = Ok raw
    ∧ Samples.expected "b.com" "A" ["1.2.3.4"; "5.6.7.8"] (-1)%Z "bar" ∈ sortAll raw
    ∧ Labels (Samples.expected "b.com" "A" ["1.2.3.4"; "5.6.7.8"] (-1)%Z "bar")
        !! Model.ResourceLabelKey
      = Some ("hp/" +:+ Namespace hp +:+ "/" +:+ Name hp).
Proof.
  destruct (Endpoints_resource_label
              (H := Model.sourcePackage) (H0 := Model.labelsLibrary)
              (Samples.source Samples.withEnvoy "" None false
                 [Samples.plain; Samples.annotated])
              [Samples.expected "a.com" "A" ["10.0.0.1"] (-1)%Z "foo";
               Samples.expected "a.com" "CNAME" ["lb.example.com"] (-1)%Z "foo";
               Samples.expected "b.com" "A" ["1.2.3.4"; "5.6.7.8"] (-1)%Z "bar"]
              (Samples.expected "b.com" "A" ["1.2.3.4"; "5.6.7.8"] (-1)%Z "bar"))
    as (hps & hp & raw & Hlist & Hhp & Hraw & Hin & Hlabel).
  - vm_compute. reflexivity.
  - do 2 apply list_elem_of_further. apply list_elem_of_here.
  - exists hps, hp, raw. repeat split; assumption.
Defined.

(** ** The eligibility gate *)

(** C3. A resource whose controller annotation is present with another
    value than the expected one, or whose status is not "valid", is
    skipped: its iteration logs one debug line, appends no endpoint and
    returns no error, and the result of [Endpoints] is the one it has on
    the snapshot without that resource. *)
Theorem Endpoints_skips_ineligible `{SourcePackage} `{LabelsLibrary}
    (sc : httpProxySource) (hp : HTTPProxy) (hps1 hps2 : list HTTPProxy) :
  (∃ controller,
     Annotations hp !! controllerAnnotationKey = Some controller
     ∧ controller ≠ controllerAnnotationValue)
  ∨ CurrentStatus (Status_ hp) ≠ "valid" →
  (∃ format, Endpoints_body sc hp = ([Debugf format hp], Ok []))
  ∧ outcome (Endpoints (withHTTPProxies sc (hps1 ++ hp :: hps2)))
    = outcome (Endpoints (withHTTPProxies sc (hps1 ++ hps2))).
Proof.
  intros Hgate.
  assert (∃ format, Endpoints_body sc hp = ([Debugf format hp], Ok []))
    as Hbody.
  { unfold Endpoints_body, controllerMismatch.
    destruct Hgate as [(controller & -> & Hne)|Hstatus].
    - apply String.eqb_neq in Hne. rewrite Hne. simpl. eauto.
    - apply String.eqb_neq in Hstatus. rewrite Hstatus. simpl.
      destruct (Annotations hp !! controllerAnnotationKey) as [c|]; [|eauto].
      destruct (negb (c =? controllerAnnotationValue)); eauto. }
  split; [done|].
  destruct Hbody as [format Hbody].
  assert (outcome (Endpoints_body sc hp) = Ok []) as Hskip by by rewrite Hbody.
  rewrite !Endpoints_outcome.
  cbn [httpProxyInformer withHTTPProxies].
  change (filterByAnnotations (withHTTPProxies sc ?l) ?x)
    with (filterByAnnotations sc x).
  unfold filterByAnnotations.
  destruct (ParseToLabelSelector (annotationFilter sc)) as [ls|]; [|done].
  destruct (LabelSelectorAsSelector ls) as [sel|]; [|done].
  destruct (selector_Empty sel).
  - rewrite !Endpoints_loop_withHTTPProxies. by rewrite Endpoints_loop_skip.
  - rewrite !(fold_left_filter
                (fun hp => selector_Matches sel (Annotations hp))).
    rewrite !Endpoints_loop_withHTTPProxies.
    rewrite !app_nil_l, !List.filter_app. cbn [List.filter].
    destruct (selector_Matches sel (Annotations hp)); [|done].
    by rewrite Endpoints_loop_skip.
Qed.

Lemma Endpoints_skips_ineligible_witness :
  (∃ format,
     Endpoints_body (H := Model.sourcePackage)
       (Samples.source Samples.withEnvoy "" None false []) Samples.foreign
     = ([Debugf format Samples.foreign], Ok []))
  ∧ (∃ format,
       Endpoints_body (H := Model.sourcePackage)
         (Samples.source Samples.withEnvoy "" None false []) Samples.invalid
       = ([Debugf format Samples.invalid], Ok []))
  ∧ outcome (Endpoints (H := Model.sourcePackage) (H0 := Model.labelsLibrary)
               (withHTTPProxies (Samples.source Samples.withEnvoy "" None false [])
                  ([Samples.plain] ++ Samples.invalid :: [Samples.annotated])))
    = outcome (Endpoints (H := Model.sourcePackage) (H0 := Model.labelsLibrary)
                 (withHTTPProxies (Samples.source Samples.withEnvoy "" None false [])
                    ([Samples.plain] ++ [Samples.annotated]))).
Proof.
  split; [|split].
  - apply (Endpoints_skips_ineligible
             (H := Model.sourcePackage) (H0 := Model.labelsLibrary)
             (Samples.source Samples.withEnvoy "" None false [])
             Samples.foreign [] []).
    left. exists "other-controller". split; [reflexivity|discriminate].
  - apply (Endpoints_skips_ineligible
             (H := Model.sourcePackage) (H0 := Model.labelsLibrary)
             (Samples.source Samples.withEnvoy "" None false [])
             Samples.invalid [] []).
    right. discriminate.
  - apply (Endpoints_skips_ineligible
             (H := Model.sourcePackage) (H0 := Model.labelsLibrary)
             (Samples.source Samples.withEnvoy "" None false [])
             Samples.invalid [Samples.plain] [Samples.annotated]).
    right. discriminate.
Defined.

(** C10. A resource that has no controller annotation at all and whose
    status is "valid" passes the gate: its iteration is the generation
    path, which starts with [endpointsFromHttpProxy] on the valid-status
    branch, and no debug line about skipping the resource is logged. *)
Theorem absent_controller_annotation_is_eligible `{SourcePackage}
    (sc : httpProxySource) (hp : HTTPProxy) :
  Annotations hp !! controllerAnnotationKey = None →
  CurrentStatus (Status_ hp) = "valid" →
  Endpoints_body sc hp = Endpoints_generate sc hp
  ∧ endpointsFromHttpProxy sc hp =
    (run warnIfError (getTTLFromAnnotations (Annotations hp)).2 ;;
     do targets <- resolveTargets sc hp ;;
     ret (assemble hp targets (getTTLFromAnnotations (Annotations hp)).1
            (primaryHostnames sc hp)))
  ∧ (∀ format,
       Debugf format hp ∈ trace (Endpoints_body sc hp) →
       format = "No endpoints could be generated from httpproxy %s/%s"
       ∨ format = "Endpoints generated from httpproxy: %s/%s: %v").
Proof.
  intros Hnone Hvalid.
  assert (Endpoints_body sc hp = Endpoints_generate sc hp) as Hbody.
  { unfold Endpoints_body, controllerMismatch. by rewrite Hnone, Hvalid. }
  split; [done|]. split.
  - by apply endpointsFromHttpProxy_valid.
  - intros format. rewrite Hbody. intros Hin.
    by destruct (Endpoints_generate_debug sc hp format hp Hin).
Qed.

Lemma absent_controller_annotation_is_eligible_witness :
  Endpoints_body (H := Model.sourcePackage)
    (Samples.source Samples.withEnvoy "" None false []) Samples.plain
  = ([GetService "projectcontour" "envoy";
      Debugf "Endpoints generated from httpproxy: %s/%s: %v" Samples.plain],
     Ok [Samples.expected "a.com" "A" ["10.0.0.1"] (-1)%Z "foo";
         Samples.expected "a.com" "CNAME" ["lb.example.com"] (-1)%Z "foo"]).
Proof.
  destruct (absent_controller_annotation_is_eligible
              (H := Model.sourcePackage)
              (Samples.source Samples.withEnvoy "" None false [])
              Samples.plain eq_refl eq_refl) as (-> & _ & _).
  vm_compute. reflexivity.
Defined.

(** ** The template stage *)

(** C5. A template that fails to render is fatal for the pass: if the
    template is executed on a resource and the execution fails, [Endpoints]
    returns that error, wrapped with the resource's namespace and name,
    and no endpoints. *)
Theorem template_error_is_fatal `{SourcePackage} `{LabelsLibrary}
    (sc : httpProxySource) (tmpl : Template) (hp : HTTPProxy) (err : error) :
  fqdnTemplate sc = Some tmpl →
  tmpl hp = Err err →
  ExecuteTemplate hp ∈ trace (Endpoints sc) →
  outcome (Endpoints sc) = Err (templateError hp err).
Proof.
  intros Htmpl Herr. rewrite Endpoints_trace, Endpoints_outcome.
  rewrite elem_of_cons. intros [[=]|Hin].
  destruct (httpProxyInformer sc (namespace sc)) as [hps|];
    [|by apply elem_of_nil in Hin].
  destruct (filterByAnnotations sc hps) as [hps'|];
    [|by apply elem_of_nil in Hin].
  by rewrite (Endpoints_loop_template_error sc tmpl hps' [] hp err).
Qed.

Lemma template_error_is_fatal_witness :
  outcome (Endpoints (H := Model.sourcePackage) (H0 := Model.labelsLibrary)
             (Samples.source Samples.withEnvoy "" (Some Samples.brokenTemplate)
                false [Samples.annotated; Samples.hostless]))
  = Err "failed to apply template on HTTPProxy default/foo: can't evaluate field Nme in type *v1.HTTPProxy".
Proof.
  apply (template_error_is_fatal
           (H := Model.sourcePackage) (H0 := Model.labelsLibrary)
           (Samples.source Samples.withEnvoy "" (Some Samples.brokenTemplate)
              false [Samples.annotated; Samples.hostless])
           Samples.brokenTemplate Samples.hostless
           "can't evaluate field Nme in type *v1.HTTPProxy").
  - reflexivity.
  - reflexivity.
  - apply list_elem_of_In. vm_compute.
    repeat (first [left; reflexivity | right]).
Defined.

(** C4, as amended.  For a resource that passed the gate and whose primary
    path returned [eps]: the template is executed in its iteration if and
    only if a template is configured and combine mode is on or [eps] is
    empty; when it is executed, its endpoints are appended to [eps] in
    combine mode and replace [eps] otherwise; with combine mode off and
    [eps] not empty the template is not executed and [eps] is kept. *)
Theorem template_rendered_iff `{SourcePackage}
    (sc : httpProxySource) (hp : HTTPProxy) (t : list Event)
    (eps : list Endpoint) :
  controllerMismatch hp = false →
  CurrentStatus (Status_ hp) = "valid" →
  endpointsFromHttpProxy sc hp = (t, Ok eps) →
  ((ExecuteTemplate hp ∈ trace (Endpoints_body sc hp))
   ↔ (is_Some (fqdnTemplate sc)
      ∧ (combineFQDNAnnotation sc = true ∨ eps = [])))
  ∧ (∀ tmpl,
       fqdnTemplate sc = Some tmpl →
       combineFQDNAnnotation sc = true ∨ eps = [] →
       outcome (Endpoints_body sc hp) =
       match outcome (endpointsFromTemplate sc tmpl hp) with
       | Ok tmplEndpoints =>
           Ok (setResourceLabel hp
                 (if combineFQDNAnnotation sc then eps ++ tmplEndpoints
                  else tmplEndpoints))
       | Err e => Err e
       end)
  ∧ (combineFQDNAnnotation sc = false → eps ≠ [] →
     (ExecuteTemplate hp ∉ trace (Endpoints_body sc hp))
     ∧ outcome (Endpoints_body sc hp) = Ok (setResourceLabel hp eps)).
Proof.
  intros Hctl Hvalid Hprimary.
  assert (Endpoints_body sc hp = Endpoints_generate sc hp) as ->.
  { unfold Endpoints_body. by rewrite Hctl, Hvalid. }
  pose proof (Endpoints_generate_executes sc hp hp t eps Hprimary) as Hiff.
  pose proof (Endpoints_generate_outcome sc hp) as Hout.
  rewrite Hprimary in Hout. cbn [outcome snd] in Hout.
  fold (rendersTemplate sc eps). split; [|split].
  - rewrite Hiff. tauto.
  - intros tmpl Htmpl Hcond. rewrite Hout, Htmpl.
    assert (rendersTemplate sc eps) as Hr.
    { split; [rewrite Htmpl; by eexists|done]. }
    by apply (rendersTemplate_cond sc eps tmpl Htmpl) in Hr as ->.
  - intros Hcombine Hne. split.
    + rewrite Hiff. intros [_ [_ [Hc|He]]]; congruence.
    + rewrite Hout. destruct (fqdnTemplate sc) as [tmpl|]; [|done].
      rewrite Hcombine. destruct eps; [done|]. reflexivity.
Qed.

Lemma template_rendered_iff_witness :
  ExecuteTemplate Samples.plain
    ∈ trace (Endpoints_body (H := Model.sourcePackage)
               (Samples.source Samples.withEnvoy "" (Some Samples.nameTemplate)
                  true []) Samples.plain)
  ∧ outcome (Endpoints_body (H := Model.sourcePackage)
               (Samples.source Samples.withEnvoy "" (Some Samples.nameTemplate)
                  true []) Samples.plain)
    = Ok [Samples.expected "a.com" "A" ["10.0.0.1"] (-1)%Z "foo";
          Samples.expected "a.com" "CNAME" ["lb.example.com"] (-1)%Z "foo";
          Samples.expected "foo.example.com" "A" ["10.0.0.1"] (-1)%Z "foo";
          Samples.expected "foo.example.com" "CNAME" ["lb.example.com"] (-1)%Z
            "foo"].
Proof.
  destruct (template_rendered_iff (H := Model.sourcePackage)
              (Samples.source Samples.withEnvoy "" (Some Samples.nameTemplate)
                 true [])
              Samples.plain
              [GetService "projectcontour" "envoy"]
              [Samples.assembled "a.com" "A" ["10.0.0.1"] (-1)%Z;
               Samples.assembled "a.com" "CNAME" ["lb.example.com"] (-1)%Z]
              eq_refl eq_refl eq_refl) as (Hiff & Hout & _).
  split.
  - apply Hiff. split; [by eexists|by left].
  - rewrite (Hout Samples.nameTemplate eq_refl (or_introl eq_refl)).
    vm_compute. reflexivity.
Defined.

(** C4 as stated fails: with combine mode off and the primary hostname
    "a.com", the template is still executed when the resource has no
    target, here because the load-balancer service cannot be found; the
    primary path then assembles no endpoint. *)
Lemma template_rendered_despite_primary_hostname :
  combineFQDNAnnotation
    (Samples.source Samples.noService "" (Some Samples.nameTemplate) false
       [Samples.plain]) = false
  ∧ VirtualHost_ (Spec Samples.plain) = Some {| Fqdn := "a.com" |}
  ∧ CurrentStatus (Status_ Samples.plain) = "valid"
  ∧ trace (Endpoints (H := Model.sourcePackage) (H0 := Model.labelsLibrary)
             (Samples.source Samples.noService "" (Some Samples.nameTemplate)
                false [Samples.plain]))
    = [ListHTTPProxies "";
       GetService "projectcontour" "envoy"; Warn "services not found";
       ExecuteTemplate Samples.plain;
       GetService "projectcontour" "envoy"; Warn "services not found";
       Debugf "No endpoints could be generated from httpproxy %s/%s"
         Samples.plain].
Proof. repeat split; vm_compute; reflexivity. Qed.

(** C6, as amended.  On the template path every space character (U+0020)
    of the rendered output is removed, the rest is split on commas, and
    one trailing "." is stripped from each piece.  Every piece, the empty
    ones included, is handed to [endpointsForHostname] with the targets,
    the TTL and the provider-specific annotations that the primary path of
    the same resource uses.  A hostname so obtained has no space and no
    comma, and it still ends in "." exactly when its piece ended in "..". *)
Theorem endpointsFromTemplate_hostnames `{SourcePackage}
    (sc : httpProxySource) (tmpl : Template) (hp : HTTPProxy)
    (rendered : string) :
  tmpl hp = Ok rendered →
  let pieces := strings.Split (strings.ReplaceAllEmpty rendered " ") "," in
  let ttl := getTTLFromAnnotations (Annotations hp) in
  templateHostnames rendered
  = map (fun piece => strings.TrimSuffix piece ".") pieces
  ∧ endpointsFromTemplate sc tmpl hp =
    (run emit (ExecuteTemplate hp) ;;
     run warnIfError ttl.2 ;;
     do targets <- resolveTargets sc hp ;;
     ret (assemble hp targets ttl.1 (templateHostnames rendered)))
  ∧ (CurrentStatus (Status_ hp) = "valid" →
     endpointsFromHttpProxy sc hp =
     (run warnIfError ttl.2 ;;
      do targets <- resolveTargets sc hp ;;
      ret (assemble hp targets ttl.1 (primaryHostnames sc hp))))
  ∧ (∀ piece, piece ∈ pieces →
       strings.ContainsByte (strings.TrimSuffix piece ".") " " = false
       ∧ strings.ContainsByte (strings.TrimSuffix piece ".") "," = false
       ∧ (strings.HasSuffix piece "." = true →
          piece = strings.TrimSuffix piece "." +:+ ".")
       ∧ (strings.HasSuffix piece "." = false →
          strings.TrimSuffix piece "." = piece)
       ∧ (strings.HasSuffix (strings.TrimSuffix piece ".") "." = true
          ↔ ∃ q, piece = q +:+ "..")).
Proof.
  intros Hrender pieces ttl. split; [reflexivity|].
  split; [by apply endpointsFromTemplate_Ok|].
  split; [apply endpointsFromHttpProxy_valid|].
  intros piece Hpiece.
  destruct (ContainsByte_Split _ _ " "%char piece Hpiece) as [Hcomma Hspace].
  split; [|split; [|split; [|split]]].
  - apply ContainsByte_TrimSuffix, Hspace, ContainsByte_ReplaceAllEmpty.
  - by apply ContainsByte_TrimSuffix.
  - intros [q ->]%HasSuffix_inv. by rewrite TrimSuffix_app.
  - apply TrimSuffix_id.
  - apply HasSuffix_TrimSuffix.
Qed.

Lemma endpointsFromTemplate_hostnames_witness :
  templateHostnames "foo.example.com., foo.example.org"
  = ["foo.example.com"; "foo.example.org"]
  ∧ outcome (endpointsFromTemplate (H := Model.sourcePackage)
               (Samples.source Samples.withEnvoy "" (Some Samples.listTemplate)
                  false [])
               Samples.listTemplate Samples.annotated)
    = Ok [Samples.assembled "bar.example.com" "A" ["1.2.3.4"; "5.6.7.8"] (-1)%Z;
          Samples.assembled "bar.example.org" "A" ["1.2.3.4"; "5.6.7.8"] (-1)%Z].
Proof.
  destruct (endpointsFromTemplate_hostnames (H := Model.sourcePackage)
              (Samples.source Samples.withEnvoy "" (Some Samples.listTemplate)
                 false [])
              Samples.listTemplate Samples.annotated
              "bar.example.com., bar.example.org" eq_refl)
    as (_ & Hpath & _).
  split; [reflexivity|].
  rewrite Hpath. vm_compute. reflexivity.
Defined.

(** C6 as stated fails.  Only one trailing "." is stripped, so the output
    "a.com..." leaves the hostname "a.com..", which ends in "."; only
    spaces are removed, so a tab in the output stays in the hostname; and
    an empty piece is a hostname like the others. *)
Lemma templateHostnames_keep_dot_and_tab :
  templateHostnames "a.com..." = ["a.com.."]
  ∧ strings.HasSuffix "a.com.." "." = true
  ∧ templateHostnames (String "009" "b.com, c.com") = [String "009" "b.com"; "c.com"]
  ∧ strings.ContainsByte (String "009" "b.com") "009" = true
  ∧ templateHostnames "a.com," = ["a.com"; ""].
Proof. repeat split. Qed.

(** ** Annotation filtering *)

(** C8. A filter expression that does not parse makes [Endpoints] return
    the parse error right after listing, before any resource is looked
    at.  The empty filter expression keeps the candidate list as it is.
    A filter that parses and matches none of the candidates gives the
    empty list and no error, and [Endpoints] then returns no endpoint and
    no error.  The second and third parts rest on the selector library:
    the empty expression selects everything, and a selector that reports
    itself empty matches everything. *)
Theorem filterByAnnotations_contract `{SourcePackage} `{LabelsLibrary}
    (sc : httpProxySource) (hps : list HTTPProxy) :
  httpProxyInformer sc (namespace sc) = Ok hps →
  (∀ err,
     ParseToLabelSelector (annotationFilter sc) = Err err
     ∨ (∃ labelSelector,
          ParseToLabelSelector (annotationFilter sc) = Ok labelSelector
          ∧ LabelSelectorAsSelector labelSelector = Err err) →
     filterByAnnotations sc hps = Err err
     ∧ Endpoints sc = ([ListHTTPProxies (namespace sc)], Err err))
  ∧ (emptyExpressionSelectsAll → annotationFilter sc = "" →
     filterByAnnotations sc hps = Ok hps)
  ∧ (emptySelectorMatchesAll →
     ∀ labelSelector selector,
       ParseToLabelSelector (annotationFilter sc) = Ok labelSelector →
       LabelSelectorAsSelector labelSelector = Ok selector →
       (∀ hp, hp ∈ hps → selector_Matches selector (Annotations hp) = false) →
       filterByAnnotations sc hps = Ok []
       ∧ Endpoints sc = ([ListHTTPProxies (namespace sc)], Ok [])).
Proof.
  intros Hlist. split; [|split].
  - intros err Hparse.
    assert (filterByAnnotations sc hps = Err err) as Hfilter.
    { unfold filterByAnnotations.
      destruct Hparse as [->|(ls & -> & ->)]; done. }
    split; [done|].
    unfold Endpoints. by rewrite emit_bind, Hlist, Hfilter.
  - intros (ls & sel & Hparse & Hsel & Hall) Hempty.
    rewrite <- Hempty in Hparse.
    rewrite (filterByAnnotations_Ok sc ls sel hps Hparse Hsel). f_equal.
    destruct (selector_Empty sel); [done|].
    destruct Hall as [|Hall]; [done|].
    apply filter_all. intros hp _. apply Hall.
  - intros Hlib ls sel Hparse Hsel Hnone.
    assert (filterByAnnotations sc hps = Ok []) as Hfilter.
    { rewrite (filterByAnnotations_Ok sc ls sel hps Hparse Hsel). f_equal.
      destruct (selector_Empty sel) eqn:Hempty.
      - destruct hps as [|hp hps']; [done|].
        pose proof (Hnone hp (list_elem_of_here _ _)) as Hhp.
        rewrite (Hlib sel (Annotations hp) Hempty) in Hhp. discriminate.
      - by apply filter_none. }
    split; [done|].
    unfold Endpoints. by rewrite emit_bind, Hlist, Hfilter.
Qed.

Lemma filterByAnnotations_contract_witness :
  Endpoints (H := Model.sourcePackage) (H0 := Model.labelsLibrary)
    (Samples.source Samples.withEnvoy "app" None false
       [Samples.plain; Samples.annotated])
  = ([ListHTTPProxies ""], Err "couldn't parse the selector string app")
  ∧ filterByAnnotations (H0 := Model.labelsLibrary)
      (Samples.source Samples.withEnvoy "" None false
         [Samples.plain; Samples.annotated])
      [Samples.plain; Samples.annotated]
    = Ok [Samples.plain; Samples.annotated]
  ∧ Endpoints (H := Model.sourcePackage) (H0 := Model.labelsLibrary)
      (Samples.source Samples.withEnvoy "app=web" None false
         [Samples.plain; Samples.annotated])
    = ([ListHTTPProxies ""], Ok []).
Proof.
  split; [|split].
  - destruct (filterByAnnotations_contract
                (H := Model.sourcePackage) (H0 := Model.labelsLibrary)
                (Samples.source Samples.withEnvoy "app" None false
                   [Samples.plain; Samples.annotated])
                [Samples.plain; Samples.annotated] eq_refl) as [Hbad _].
    apply (Hbad "couldn't parse the selector string app"). by left.
  - destruct (filterByAnnotations_contract
                (H := Model.sourcePackage) (H0 := Model.labelsLibrary)
                (Samples.source Samples.withEnvoy "" None false
                   [Samples.plain; Samples.annotated])
                [Samples.plain; Samples.annotated] eq_refl) as (_ & Hempty & _).
    apply Hempty; [|reflexivity].
    exists [], []. repeat split. by left.
  - destruct (filterByAnnotations_contract
                (H := Model.sourcePackage) (H0 := Model.labelsLibrary)
                (Samples.source Samples.withEnvoy "app=web" None false
                   [Samples.plain; Samples.annotated])
                [Samples.plain; Samples.annotated] eq_refl) as (_ & _ & Hnone).
    apply (Hnone Model_emptySelectorMatchesAll
             [("app", "web")] [("app", "web")] eq_refl eq_refl).
    intros hp Hhp.
    apply elem_of_cons in Hhp as [->|Hhp]; [vm_compute; reflexivity|].
    apply list_elem_of_singleton in Hhp as ->. vm_compute. reflexivity.
Defined.

(** ** TTL *)

(** C9. A TTL annotation that does not parse never aborts synthesis.  Take
    a resource for which [getTTLFromAnnotations] returns an error.  If the
    resource passes the gate, the error is logged as a warning and both
    paths still assemble their hostnames, with the unset TTL.  In any
    case its iteration can only fail on the load-balancer service string
    or on the template, and every endpoint it returns has the unset TTL.
    The unset TTL on error and the TTL being carried into the Endpoint
    are what the specification says of the two helpers. *)
Theorem malformed_TTL_is_not_fatal `{SourcePackage}
    (unset : TTL) (sc : httpProxySource) (hp : HTTPProxy) (err : error) :
  unsetOnError unset → keepsTTL →
  (getTTLFromAnnotations (Annotations hp)).2 = Some err →
  (controllerMismatch hp = false → CurrentStatus (Status_ hp) = "valid" →
   Warn err ∈ trace (Endpoints_body sc hp)
   ∧ endpointsFromHttpProxy sc hp =
     (run emit (Warn err) ;;
      do targets <- resolveTargets sc hp ;;
      ret (assemble hp targets unset (primaryHostnames sc hp)))
   ∧ (∀ tmpl rendered,
        tmpl hp = Ok rendered →
        endpointsFromTemplate sc tmpl hp =
        (run emit (ExecuteTemplate hp) ;;
         run emit (Warn err) ;;
         do targets <- resolveTargets sc hp ;;
         ret (assemble hp targets unset (templateHostnames rendered)))))
  ∧ (∀ e,
       outcome (Endpoints_body sc hp) = Err e →
       parseContourLoadBalancerService (contourLoadBalancerService sc) = Err e
       ∨ ∃ tmpl, fqdnTemplate sc = Some tmpl ∧ is_Err (tmpl hp) = true)
  ∧ (∀ eps,
       outcome (Endpoints_body sc hp) = Ok eps →
       Forall (fun ep => RecordTTL ep = unset) eps).
Proof.
  intros Hunset Hkeep Herr.
  destruct (getTTLFromAnnotations (Annotations hp)) as [ttl e0] eqn:Httl.
  simpl in Herr. subst e0.
  pose proof (Hunset _ _ _ Httl) as ->.
  assert (CurrentStatus (Status_ hp) = "valid" →
          endpointsFromHttpProxy sc hp =
          (run emit (Warn err) ;;
           do targets <- resolveTargets sc hp ;;
           ret (assemble hp targets unset (primaryHostnames sc hp))))
    as Hprimary.
  { intros Hvalid. rewrite (endpointsFromHttpProxy_valid sc hp Hvalid).
    by rewrite Httl. }
  split.
  { intros Hctl Hvalid.
    assert (Endpoints_body sc hp = Endpoints_generate sc hp) as ->.
    { unfold Endpoints_body. by rewrite Hctl, Hvalid. }
    split; [|split].
    - unfold Endpoints_generate. rewrite trace_bind, elem_of_app. left.
      rewrite (Hprimary Hvalid), emit_bind. apply list_elem_of_here.
    - by apply Hprimary.
    - intros tmpl rendered Hrender.
      rewrite (endpointsFromTemplate_Ok sc tmpl hp rendered Hrender).
      by rewrite Httl. }
  unfold Endpoints_body.
  destruct (controllerMismatch hp).
  { rewrite emit_bind. split; [done|]. intros eps [= <-]. constructor. }
  destruct (String.eqb_spec (CurrentStatus (Status_ hp)) "valid") as [Hvalid|];
    cbn [negb].
  2: { rewrite emit_bind. split; [done|]. intros eps [= <-]. constructor. }
  specialize (Hprimary Hvalid).
  rewrite Endpoints_generate_outcome. split.
  - intros e.
    destruct (outcome (endpointsFromHttpProxy sc hp)) as [eps0|e0] eqn:Hout.
    + destruct (fqdnTemplate sc) as [tmpl|]; [|done].
      destruct (combineFQDNAnnotation sc || (length eps0 =? 0)%nat); [|done].
      destruct (outcome (endpointsFromTemplate sc tmpl hp)) as [teps|e1] eqn:Ht;
        [done|].
      intros [= ->].
      destruct (endpointsFromTemplate_outcome_Err sc tmpl hp e Ht); eauto.
    + intros [= ->]. left.
      rewrite Hprimary, emit_bind in Hout. unfold outcome at 1 in Hout.
      cbn [snd] in Hout. rewrite outcome_bind in Hout.
      destruct (outcome (resolveTargets sc hp)) eqn:Hr; [done|].
      injection Hout as ->. by apply (outcome_resolveTargets_Err sc hp).
  - intros eps.
    destruct (outcome (endpointsFromHttpProxy sc hp)) as [eps0|e0] eqn:Hout;
      [|done].
    pose proof (endpointsFromHttpProxy_TTL sc hp eps0 Hkeep Hvalid Hout) as H0.
    rewrite Httl in H0. cbn [fst] in H0.
    destruct (fqdnTemplate sc) as [tmpl|];
      [|intros [= <-]; by apply setResourceLabel_TTL].
    destruct (combineFQDNAnnotation sc || (length eps0 =? 0)%nat);
      [|intros [= <-]; by apply setResourceLabel_TTL].
    destruct (outcome (endpointsFromTemplate sc tmpl hp)) as [teps|e1] eqn:Ht;
      [|done].
    pose proof (endpointsFromTemplate_TTL sc tmpl hp teps Hkeep Ht) as H1.
    rewrite Httl in H1. cbn [fst] in H1.
    intros [= <-]. apply setResourceLabel_TTL.
    destruct (combineFQDNAnnotation sc); [by apply Forall_app|done].
Qed.

Lemma malformed_TTL_is_not_fatal_witness :
  Warn "not a valid TTL value: abc"
    ∈ trace (Endpoints_body (H := Model.sourcePackage)
               (Samples.source Samples.withEnvoy "" None false [Samples.badTTL])
               Samples.badTTL)
  ∧ (∀ eps,
      outcome (Endpoints_body (H := Model.sourcePackage)
                 (Samples.source Samples.withEnvoy "" None false [Samples.badTTL])
                 Samples.badTTL) = Ok eps →
      Forall (fun ep => RecordTTL ep = (-1)%Z) eps)
  ∧ outcome (Endpoints (H := Model.sourcePackage) (H0 := Model.labelsLibrary)
               (Samples.source Samples.withEnvoy "" None false [Samples.badTTL]))
    = Ok [Samples.expected "c.com" "A" ["10.0.0.1"] (-1)%Z "baz";
          Samples.expected "c.com" "CNAME" ["lb.example.com"] (-1)%Z "baz"].
Proof.
  destruct (malformed_TTL_is_not_fatal (H := Model.sourcePackage)
              Model.ttlNotConfigured
              (Samples.source Samples.withEnvoy "" None false [Samples.badTTL])
              Samples.badTTL "not a valid TTL value: abc"
              Model_unsetOnError Model_keepsTTL eq_refl)
    as (Heligible & _ & Hunset).
  destruct (Heligible eq_refl eq_refl) as (Hwarn & _ & _).
  split; [exact Hwarn|]. split; [exact Hunset|]. vm_compute. reflexivity.
Defined.

(** ** Determinism *)

(** C7. The list [Endpoints] returns is a function of the snapshot, with
    every target list in sorted order, and it does not depend on the order
    in which the load-balancer service lists its ingress entries: against
    a client whose answers differ from those of the source's client at
    most in that order, [Endpoints] returns the same endpoints or the
    same error.  Running it twice on one snapshot is the case of the same
    client.  The sort is taken in Go's order on strings, and the absent
    [endpointsForHostname] is asked to treat reordered targets alike. *)
Theorem Endpoints_deterministic `{SourcePackage} `{LabelsLibrary}
    (sc : httpProxySource) (client : string → string → result Service) :
  respectsTargetOrder →
  (∀ ns name, sameIngress (kubeClient sc ns name) (client ns name)) →
  outcome (Endpoints (withKubeClient sc client)) = outcome (Endpoints sc)
  ∧ outcome (Endpoints (withKubeClient sc (kubeClient sc)))
    = outcome (Endpoints sc)
  ∧ ∀ eps,
      outcome (Endpoints sc) = Ok eps →
      Forall (fun ep => StronglySorted String.le (Targets_ ep)) eps.
Proof.
  intros Hassembler Hclient. split; [|split].
  - by apply Endpoints_reordered.
  - apply Endpoints_reordered; [|done].
    intros ns name. unfold sameIngress. by destruct (kubeClient sc ns name).
  - intros eps. rewrite Endpoints_outcome.
    destruct (httpProxyInformer sc (namespace sc)) as [hps|]; [|done].
    destruct (filterByAnnotations sc hps) as [hps'|]; [|done].
    destruct (outcome (Endpoints_loop sc hps' [])) as [endpoints|]; [|done].
    intros [= <-]. unfold sortAll. apply Forall_fmap, Forall_forall.
    intros ep _. simpl. apply sortTargets_sorted.
Qed.

Lemma Endpoints_deterministic_witness :
  outcome (Endpoints (H := Model.sourcePackage) (H0 := Model.labelsLibrary)
             (withKubeClient
                (Samples.source Samples.withDual "" None false [Samples.plain])
                Samples.withDualReversed))
  = outcome (Endpoints (H := Model.sourcePackage) (H0 := Model.labelsLibrary)
               (Samples.source Samples.withDual "" None false [Samples.plain]))
  ∧ outcome (Endpoints (H := Model.sourcePackage) (H0 := Model.labelsLibrary)
               (Samples.source Samples.withDual "" None false [Samples.plain]))
    = Ok [Samples.expected "a.com" "A" ["10.0.0.1"; "10.0.0.2"] (-1)%Z "foo";
          Samples.expected "a.com" "CNAME" ["lb.example.com"] (-1)%Z "foo"].
Proof.
  split; [|vm_compute; reflexivity].
  apply (Endpoints_deterministic
           (H := Model.sourcePackage) (H0 := Model.labelsLibrary)
           (Samples.source Samples.withDual "" None false [Samples.plain])
           Samples.withDualReversed Model_respectsTargetOrder).
  intros ns name. simpl. apply perm_swap.
Defined.

(** * Further properties of the source *)

(** ** What the load balancer contributes *)

Lemma elem_of_ingressEntryTargets (lb : LoadBalancerIngress) (t : string) :
  t ∈ ingressEntryTargets lb ↔ t ≠ "" ∧ (t = IP lb ∨ t = Hostname lb).
Proof.
  unfold ingressEntryTargets. rewrite elem_of_app.
  destruct (String.eqb_spec (IP lb) "") as [Hip|Hip],
    (String.eqb_spec (Hostname lb) "") as [Hh|Hh]; simpl;
    rewrite ?elem_of_nil, ?list_elem_of_singleton; split;
    try (intros [?|?]; subst; tauto); intros [? [?|?]]; subst; tauto.
Qed.

Lemma length_ingressEntryTargets (lb : LoadBalancerIngress) :
  (length (ingressEntryTargets lb) ≤ 2)%nat.
Proof.
  unfold ingressEntryTargets.
  destruct (negb (IP lb =? "")), (negb (Hostname lb =? "")); simpl; lia.
Qed.

(** X1. When the service string parses and the lookup succeeds,
    [targetsFromContourLoadBalancer] looks the service up once and never
    fails; a string is among the targets it returns exactly when it is
    not empty and is the IP or the hostname of an ingress entry, so an
    entry with neither contributes nothing; and there are at most two
    targets per entry. *)
Theorem targetsFromContourLoadBalancer_targets `{SourcePackage}
    (sc : httpProxySource) (ns name : string) (svc : Service) :
  parseContourLoadBalancerService (contourLoadBalancerService sc) = Ok (ns, name) →
  kubeClient sc ns name = Ok svc →
  ∃ targets,
    targetsFromContourLoadBalancer sc = ([GetService ns name], Ok targets)
    ∧ (∀ t, t ∈ targets
            ↔ t ≠ "" ∧ ∃ lb, lb ∈ Ingress svc ∧ (t = IP lb ∨ t = Hostname lb))
    ∧ (length targets ≤ 2 * length (Ingress svc))%nat.
Proof.
  intros Hparse Hsvc. exists (flat_map ingressEntryTargets (Ingress svc)).
  split; [|split].
  - unfold targetsFromContourLoadBalancer. rewrite Hparse, emit_bind, Hsvc.
    by rewrite ingressTargets_flat_map.
  - intros t. rewrite list_elem_of_In, in_flat_map. split.
    + intros (lb & Hlb & Ht).
      apply list_elem_of_In, elem_of_ingressEntryTargets in Ht as [Hne Ht].
      split; [done|]. exists lb. by rewrite list_elem_of_In.
    + intros (Hne & lb & Hlb & Ht). exists lb.
      rewrite <- !list_elem_of_In. split; [done|].
      by apply elem_of_ingressEntryTargets.
  - induction (Ingress svc) as [|lb ingress IH]; simpl; [lia|].
    rewrite length_app. pose proof (length_ingressEntryTargets lb). lia.
Qed.

Lemma targetsFromContourLoadBalancer_targets_witness :
  ∃ targets,
    targetsFromContourLoadBalancer (H := Model.sourcePackage)
      (Samples.source Cluster.withSparse "" None false [])
    = ([GetService "projectcontour" "envoy"], Ok targets)
    ∧ (∀ t, t ∈ targets
            ↔ t ≠ "" ∧ ∃ lb, lb ∈ Ingress Cluster.sparse
                              ∧ (t = IP lb ∨ t = Hostname lb))
    ∧ (length targets ≤ 2 * length (Ingress Cluster.sparse))%nat.
Proof.
  apply (targetsFromContourLoadBalancer_targets (H := Model.sourcePackage)
           (Samples.source Cluster.withSparse "" None false [])
           "projectcontour" "envoy" Cluster.sparse eq_refl eq_refl).
Defined.

(** ** What a pass asks of the cluster *)

Section TraceInvariant.
Context `{SourcePackage} `{LabelsLibrary}.
Variable sc : httpProxySource.
Variable P : Event → Prop.
Hypothesis P_list : ∀ ns, P (ListHTTPProxies ns).
Hypothesis P_execute : ∀ hp, P (ExecuteTemplate hp).
Hypothesis P_warn : ∀ e, P (Warn e).
Hypothesis P_debug : ∀ format hp, P (Debugf format hp).
Hypothesis P_lookup :
  ∀ ns name,
    parseContourLoadBalancerService (contourLoadBalancerService sc) = Ok (ns, name) →
    P (GetService ns name).

Lemma invariant_targetsFromContourLoadBalancer :
  Forall P (trace (targetsFromContourLoadBalancer sc)).
Proof.
  unfold targetsFromContourLoadBalancer.
  destruct (parseContourLoadBalancerService _) as [[ns name]|] eqn:Hparse;
    [|constructor].
  rewrite emit_bind.
  destruct (kubeClient sc ns name); [|rewrite emit_bind];
    repeat (constructor; auto).
Qed.

Lemma invariant_resolveTargets hp : Forall P (trace (resolveTargets sc hp)).
Proof.
  unfold resolveTargets.
  destruct (length _ =? 0)%nat;
    [apply invariant_targetsFromContourLoadBalancer|constructor].
Qed.

Lemma invariant_warnIfError err : Forall P (trace (warnIfError err)).
Proof. destruct err; repeat (constructor; auto). Qed.

Lemma invariant_endpointsFromHttpProxy hp :
  Forall P (trace (endpointsFromHttpProxy sc hp)).
Proof.
  unfold endpointsFromHttpProxy.
  destruct (negb (CurrentStatus (Status_ hp) =? "valid")).
  { rewrite emit_bind. repeat (constructor; auto). }
  destruct (getTTLFromAnnotations (Annotations hp)) as [ttl err].
  apply Forall_trace_bind; [apply invariant_warnIfError|intros _].
  apply Forall_trace_bind; [apply invariant_resolveTargets|intros targets].
  destruct (getProviderSpecificAnnotations (Annotations hp)). constructor.
Qed.

Lemma invariant_endpointsFromTemplate tmpl hp :
  Forall P (trace (endpointsFromTemplate sc tmpl hp)).
Proof.
  unfold endpointsFromTemplate.
  apply Forall_trace_bind; [repeat (constructor; auto)|intros _].
  destruct (tmpl hp); [|constructor].
  destruct (getTTLFromAnnotations (Annotations hp)) as [ttl err].
  apply Forall_trace_bind; [apply invariant_warnIfError|intros _].
  apply Forall_trace_bind; [apply invariant_resolveTargets|intros targets].
  destruct (getProviderSpecificAnnotations (Annotations hp)). constructor.
Qed.

Lemma invariant_Endpoints_body hp : Forall P (trace (Endpoints_body sc hp)).
Proof.
  unfold Endpoints_body.
  destruct (controllerMismatch hp).
  { rewrite emit_bind. repeat (constructor; auto). }
  destruct (negb (CurrentStatus (Status_ hp) =? "valid")).
  { rewrite emit_bind. repeat (constructor; auto). }
  unfold Endpoints_generate.
  apply Forall_trace_bind; [apply invariant_endpointsFromHttpProxy|intros eps].
  apply Forall_trace_bind.
  - destruct (fqdnTemplate sc) as [tmpl|]; [|constructor].
    destruct (combineFQDNAnnotation sc || (length eps =? 0)%nat); [|constructor].
    apply Forall_trace_bind; [apply invariant_endpointsFromTemplate|].
    intros teps. constructor.
  - intros eps'. destruct (length eps' =? 0)%nat; rewrite emit_bind;
      repeat (constructor; auto).
Qed.

Lemma invariant_Endpoints_loop hps endpoints :
  Forall P (trace (Endpoints_loop sc hps endpoints)).
Proof.
  revert endpoints. induction hps as [|hp hps IH]; intros endpoints;
    [constructor|].
  simpl. apply Forall_trace_bind; [apply invariant_Endpoints_body|].
  intros eps. apply IH.
Qed.

Lemma invariant_Endpoints : Forall P (trace (Endpoints sc)).
Proof.
  rewrite Endpoints_trace. constructor; [done|].
  destruct (httpProxyInformer sc (namespace sc)) as [hps|]; [|constructor].
  destruct (filterByAnnotations sc hps) as [hps'|]; [|constructor].
  apply invariant_Endpoints_loop.
Qed.
End TraceInvariant.

(** X2. Whatever the snapshot, every service lookup of a pass is for the
    namespace and name that the configured service string parses to; if
    the string does not parse, no service is looked up at all. *)
Theorem Endpoints_looks_up_configured_service `{SourcePackage} `{LabelsLibrary}
    (sc : httpProxySource) (ns name : string) :
  GetService ns name ∈ trace (Endpoints sc) →
  parseContourLoadBalancerService (contourLoadBalancerService sc) = Ok (ns, name).
Proof.
  intros Hin.
  pose proof (invariant_Endpoints sc
                (fun ev => match ev with
                           | GetService ns name =>
                               parseContourLoadBalancerService
                                 (contourLoadBalancerService sc) = Ok (ns, name)
                           | _ => True
                           end)
                (fun _ => I) (fun _ => I) (fun _ => I) (fun _ _ => I)
                (fun _ _ Hparse => Hparse)) as Hall.
  rewrite Forall_forall in Hall. exact (Hall _ Hin).
Qed.

Lemma Endpoints_looks_up_configured_service_witness :
  Model.parseContourLoadBalancerService "projectcontour/envoy"
  = Ok ("projectcontour", "envoy").
Proof.
  apply (Endpoints_looks_up_configured_service
           (H := Model.sourcePackage) (H0 := Model.labelsLibrary)
           (Samples.source Samples.withEnvoy "" None false [Samples.plain])
           "projectcontour" "envoy").
  apply list_elem_of_In. vm_compute. repeat (first [left; reflexivity | right]).
Defined.

Lemma lookups_app (t1 t2 : list Event) :
  lookups (t1 ++ t2) = (lookups t1 + lookups t2)%nat.
Proof. unfold lookups. by rewrite List.filter_app, length_app. Qed.

Lemma lookups_bind {A B} (m : M A) (k : A → M B) :
  lookups (trace (bind m k))
  = (lookups (trace m)
     + match outcome m with
       | Ok a => lookups (trace (k a))
       | Err _ => 0
       end)%nat.
Proof. rewrite trace_bind, lookups_app. by destruct (outcome m). Qed.

Section Lookups.
Context `{SourcePackage} `{LabelsLibrary}.
Variable sc : httpProxySource.

Lemma lookups_warnIfError err : lookups (trace (warnIfError err)) = 0%nat.
Proof. by destruct err. Qed.

Local Ltac count_lookups := unfold lookups, trace; simpl; lia.

Lemma lookups_resolveTargets hp :
  (lookups (trace (resolveTargets sc hp))
   ≤ if needsLoadBalancer hp then 1 else 0)%nat.
Proof.
  unfold resolveTargets, needsLoadBalancer.
  destruct (length _ =? 0)%nat; [|count_lookups].
  unfold targetsFromContourLoadBalancer.
  destruct (parseContourLoadBalancerService _) as [[ns name]|]; [|count_lookups].
  rewrite emit_bind.
  destruct (kubeClient sc ns name); [|rewrite emit_bind]; count_lookups.
Qed.

Lemma lookups_assembling hp err (f : Targets → list Endpoint) :
  (lookups (trace (run warnIfError err ;;
                   do targets <- resolveTargets sc hp ;; ret (f targets)))
   ≤ if needsLoadBalancer hp then 1 else 0)%nat.
Proof.
  rewrite lookups_bind, lookups_warnIfError.
  assert (outcome (warnIfError err) = Ok tt) as -> by by destruct err.
  rewrite lookups_bind. pose proof (lookups_resolveTargets hp).
  destruct (outcome (resolveTargets sc hp)) as [targets|];
    [change (lookups (trace (ret (f targets)))) with 0%nat|]; lia.
Qed.

Lemma lookups_endpointsFromHttpProxy hp :
  (lookups (trace (endpointsFromHttpProxy sc hp))
   ≤ if needsLoadBalancer hp then 1 else 0)%nat.
Proof.
  destruct (String.eqb_spec (CurrentStatus (Status_ hp)) "valid") as [Hv|Hv].
  - rewrite (endpointsFromHttpProxy_valid sc hp Hv). apply lookups_assembling.
  - apply String.eqb_neq in Hv. unfold endpointsFromHttpProxy. rewrite Hv.
    cbn [negb]. rewrite emit_bind. unfold lookups, trace. simpl.
    destruct (needsLoadBalancer hp); lia.
Qed.

Lemma lookups_endpointsFromTemplate tmpl hp :
  (lookups (trace (endpointsFromTemplate sc tmpl hp))
   ≤ if needsLoadBalancer hp then 1 else 0)%nat.
Proof.
  destruct (tmpl hp) as [rendered|e] eqn:Hrender.
  - rewrite (endpointsFromTemplate_Ok sc tmpl hp rendered Hrender).
    rewrite emit_bind. apply lookups_assembling.
  - rewrite (endpointsFromTemplate_Err sc tmpl hp e Hrender).
    unfold lookups, trace. simpl. destruct (needsLoadBalancer hp); lia.
Qed.

Lemma lookups_Endpoints_body hp :
  (lookups (trace (Endpoints_body sc hp))
   ≤ if needsLoadBalancer hp then 2 else 0)%nat.
Proof.
  unfold Endpoints_body.
  destruct (controllerMismatch hp); [count_lookups|].
  destruct (negb (CurrentStatus (Status_ hp) =? "valid")); [count_lookups|].
  unfold Endpoints_generate. rewrite lookups_bind.
  pose proof (lookups_endpointsFromHttpProxy hp) as Hprimary.
  destruct (outcome (endpointsFromHttpProxy sc hp)) as [eps|];
    [|destruct (needsLoadBalancer hp); lia].
  rewrite lookups_bind.
  match goal with
  | |- (_ + (lookups (trace ?stage) + ?final) ≤ _)%nat =>
      assert (lookups (trace stage)
              ≤ if needsLoadBalancer hp then 1 else 0)%nat as Hstage;
      [|assert (final = 0%nat) as ->]
  end.
  - destruct (fqdnTemplate sc) as [tmpl|]; [|count_lookups].
    destruct (combineFQDNAnnotation sc || (length eps =? 0)%nat); [|count_lookups].
    rewrite lookups_bind. pose proof (lookups_endpointsFromTemplate tmpl hp).
    destruct (outcome (endpointsFromTemplate sc tmpl hp));
      [change (lookups (trace (ret ?x))) with 0%nat|]; lia.
  - match goal with |- context [outcome ?m] => destruct (outcome m) as [eps'|] end;
      [|done].
    by destruct (length eps' =? 0)%nat.
  - destruct (needsLoadBalancer hp); lia.
Qed.

Lemma lookups_Endpoints_loop hps endpoints :
  (lookups (trace (Endpoints_loop sc hps endpoints))
   ≤ 2 * length (List.filter needsLoadBalancer hps))%nat.
Proof.
  revert endpoints. induction hps as [|hp hps IH]; intros endpoints;
    [count_lookups|].
  cbn [Endpoints_loop List.filter]. rewrite lookups_bind.
  pose proof (lookups_Endpoints_body hp) as Hbody.
  assert (match outcome (Endpoints_body sc hp) with
          | Ok a => lookups (trace (Endpoints_loop sc hps (endpoints ++ a)))
          | Err _ => 0
          end ≤ 2 * length (List.filter needsLoadBalancer hps))%nat as Hrest.
  { destruct (outcome (Endpoints_body sc hp)); [apply IH|lia]. }
  destruct (needsLoadBalancer hp); cbn [length]; cbn iota in Hbody; lia.
Qed.
End Lookups.

Lemma length_filter_filter {X} (p q : X → bool) (l : list X) :
  (length (List.filter p (List.filter q l)) ≤ length (List.filter p l))%nat.
Proof.
  induction l as [|x l IH]; simpl; [lia|].
  destruct (q x); simpl; destruct (p x); simpl; lia.
Qed.

(** X3. A pass looks the load-balancer service up at most twice for each
    listed resource whose target annotation gives no target, once on the
    primary path and once on the template path, and never for the other
    resources: with [n] such resources in the snapshot there are at most
    [2 * n] lookups. *)
Theorem Endpoints_lookups_bound `{SourcePackage} `{LabelsLibrary}
    (sc : httpProxySource) (hps : list HTTPProxy) :
  httpProxyInformer sc (namespace sc) = Ok hps →
  (lookups (trace (Endpoints sc))
   ≤ 2 * length (List.filter needsLoadBalancer hps))%nat
  ∧ ∀ hp, needsLoadBalancer hp = false →
          lookups (trace (Endpoints_body sc hp)) = 0%nat.
Proof.
  intros Hlist. split.
  - rewrite Endpoints_trace, Hlist.
    change (lookups (?ev :: ?t)) with (lookups t) at 1.
    unfold filterByAnnotations.
    destruct (ParseToLabelSelector (annotationFilter sc)) as [ls|];
      [|unfold lookups; simpl; lia].
    destruct (LabelSelectorAsSelector ls) as [sel|]; [|unfold lookups; simpl; lia].
    destruct (selector_Empty sel); [apply lookups_Endpoints_loop|].
    rewrite (fold_left_filter
               (fun hp => selector_Matches sel (Annotations hp))).
    rewrite app_nil_l.
    etrans; [apply lookups_Endpoints_loop|].
    pose proof (length_filter_filter needsLoadBalancer
                  (fun hp => selector_Matches sel (Annotations hp)) hps).
    lia.
  - intros hp Hhp. pose proof (lookups_Endpoints_body sc hp) as Hbody.
    rewrite Hhp in Hbody. lia.
Qed.

Lemma Endpoints_lookups_bound_witness :
  (lookups (trace (Endpoints (H := Model.sourcePackage)
                     (H0 := Model.labelsLibrary)
                     (Samples.source Samples.withEnvoy ""
                        (Some Samples.nameTemplate) true
                        [Samples.plain; Samples.annotated]))) ≤ 2)%nat
  ∧ lookups (trace (Endpoints_body (H := Model.sourcePackage)
                      (Samples.source Samples.withEnvoy ""
                         (Some Samples.nameTemplate) true
                         [Samples.plain; Samples.annotated])
                      Samples.annotated)) = 0%nat.
Proof.
  destruct (Endpoints_lookups_bound
              (H := Model.sourcePackage) (H0 := Model.labelsLibrary)
              (Samples.source Samples.withEnvoy "" (Some Samples.nameTemplate)
                 true [Samples.plain; Samples.annotated])
              [Samples.plain; Samples.annotated] eq_refl) as [Hbound Hzero].
  split; [exact Hbound|]. apply Hzero. reflexivity.
Defined.

(** ** A service string that does not parse *)

(** X4. When the configured service string does not parse,
    [targetsFromContourLoadBalancer] returns the parse error without
    looking anything up, and, unlike a failed lookup, the error is not
    swallowed: the iteration of a resource that passes the gate and has
    no target annotation stops with that error right after the TTL
    warning, before any template is rendered, while the primary path of a
    resource that has a target annotation is not affected. *)
Theorem unparsable_service_string_is_fatal `{SourcePackage}
    (sc : httpProxySource) (e : error) :
  parseContourLoadBalancerService (contourLoadBalancerService sc) = Err e →
  targetsFromContourLoadBalancer sc = ([], Err e)
  ∧ (∀ hp,
       controllerMismatch hp = false →
       CurrentStatus (Status_ hp) = "valid" →
       getTargetsFromTargetAnnotation (Annotations hp) = [] →
       Endpoints_body sc hp
       = (trace (warnIfError (getTTLFromAnnotations (Annotations hp)).2), Err e))
  ∧ (∀ hp,
       CurrentStatus (Status_ hp) = "valid" →
       getTargetsFromTargetAnnotation (Annotations hp) ≠ [] →
       endpointsFromHttpProxy sc hp
       = (trace (warnIfError (getTTLFromAnnotations (Annotations hp)).2),
          Ok (assemble hp (getTargetsFromTargetAnnotation (Annotations hp))
                (getTTLFromAnnotations (Annotations hp)).1
                (primaryHostnames sc hp)))).
Proof.
  intros Hparse.
  assert (targetsFromContourLoadBalancer sc = ([], Err e)) as Hlb.
  { unfold targetsFromContourLoadBalancer. by rewrite Hparse. }
  split; [done|]. split.
  - intros hp Hctl Hvalid Hnone.
    assert (Endpoints_body sc hp = Endpoints_generate sc hp) as ->.
    { unfold Endpoints_body. by rewrite Hctl, Hvalid. }
    assert (endpointsFromHttpProxy sc hp
            = (trace (warnIfError (getTTLFromAnnotations (Annotations hp)).2),
               Err e)) as Hprimary.
    { rewrite (endpointsFromHttpProxy_valid sc hp Hvalid).
      unfold resolveTargets. rewrite Hnone, Hlb.
      by destruct ((getTTLFromAnnotations (Annotations hp)).2). }
    unfold Endpoints_generate. by rewrite (bind_Err _ _ _ _ Hprimary).
  - intros hp Hvalid Hsome.
    rewrite (endpointsFromHttpProxy_valid sc hp Hvalid).
    unfold resolveTargets.
    destruct (getTargetsFromTargetAnnotation (Annotations hp)) eqn:Ht; [done|].
    by destruct ((getTTLFromAnnotations (Annotations hp)).2).
Qed.

Lemma unparsable_service_string_is_fatal_witness :
  Endpoints_body (H := Model.sourcePackage) (Cluster.misconfigured [])
    Samples.plain
  = ([], Err "invalid contour load balancer service (namespace/name) found envoy")
  ∧ outcome (endpointsFromHttpProxy (H := Model.sourcePackage)
               (Cluster.misconfigured []) Samples.annotated)
    = Ok [Samples.assembled "b.com" "A" ["1.2.3.4"; "5.6.7.8"] (-1)%Z].
Proof.
  destruct (unparsable_service_string_is_fatal (H := Model.sourcePackage)
              (Cluster.misconfigured [])
              "invalid contour load balancer service (namespace/name) found envoy"
              eq_refl) as (_ & Hbody & Hprimary).
  split.
  - apply (Hbody Samples.plain); reflexivity.
  - rewrite (Hprimary Samples.annotated eq_refl); [reflexivity|].
    vm_compute. discriminate.
Defined.

(** ** Where the errors of a pass come from *)

Section ErrorSources.
Context `{SourcePackage} `{LabelsLibrary}.
Variable sc : httpProxySource.

Lemma endpointsFromHttpProxy_succeeds p hp :
  parseContourLoadBalancerService (contourLoadBalancerService sc) = Ok p →
  ∃ eps, outcome (endpointsFromHttpProxy sc hp) = Ok eps.
Proof.
  intros Hparse.
  destruct (outcome (endpointsFromHttpProxy sc hp)) as [eps|e] eqn:Hout;
    [by eexists|exfalso].
  destruct (String.eqb_spec (CurrentStatus (Status_ hp)) "valid") as [Hv|Hv].
  - rewrite (endpointsFromHttpProxy_valid sc hp Hv), outcome_assembling in Hout.
    destruct (outcome (resolveTargets sc hp)) eqn:Hr; [done|].
    apply outcome_resolveTargets_Err in Hr. congruence.
  - apply String.eqb_neq in Hv. unfold endpointsFromHttpProxy in Hout.
    rewrite Hv in Hout. cbn [negb] in Hout. by rewrite emit_bind in Hout.
Qed.

(** The template is executed in an iteration only on its own resource,
    after the gate and a primary path that returned. *)
Lemma Endpoints_body_executes hp hp' :
  ExecuteTemplate hp' ∈ trace (Endpoints_body sc hp) →
  hp' = hp ∧ controllerMismatch hp = false
  ∧ CurrentStatus (Status_ hp) = "valid"
  ∧ ∃ eps, outcome (endpointsFromHttpProxy sc hp) = Ok eps
           ∧ rendersTemplate sc eps.
Proof.
  unfold Endpoints_body.
  destruct (controllerMismatch hp).
  { rewrite emit_bind. intros Hin.
    apply list_elem_of_singleton in Hin. discriminate. }
  destruct (String.eqb_spec (CurrentStatus (Status_ hp)) "valid") as [Hv|Hv];
    cbn [negb].
  2: { rewrite emit_bind. intros Hin.
       apply list_elem_of_singleton in Hin. discriminate. }
  destruct (endpointsFromHttpProxy sc hp) as [t [eps|e]] eqn:Hprimary.
  - rewrite (Endpoints_generate_executes sc hp hp' t eps Hprimary).
    intros [-> Hr]. repeat split; try done. by exists eps.
  - unfold Endpoints_generate. rewrite (bind_Err _ _ t e Hprimary).
    intros Hin. exfalso.
    apply (not_lookupOrWarning_ExecuteTemplate t hp'); [|exact Hin].
    pose proof (trace_endpointsFromHttpProxy sc hp) as Ht.
    rewrite Hprimary in Ht. exact Ht.
Qed.

Lemma Endpoints_body_error p hp e :
  parseContourLoadBalancerService (contourLoadBalancerService sc) = Ok p →
  outcome (Endpoints_body sc hp) = Err e →
  ∃ tmpl err,
    fqdnTemplate sc = Some tmpl ∧ tmpl hp = Err err
    ∧ e = templateError hp err
    ∧ ExecuteTemplate hp ∈ trace (Endpoints_body sc hp).
Proof.
  intros Hparse. unfold Endpoints_body.
  destruct (controllerMismatch hp); [by rewrite emit_bind|].
  destruct (negb (CurrentStatus (Status_ hp) =? "valid"));
    [by rewrite emit_bind|].
  destruct (endpointsFromHttpProxy sc hp) as [t [eps|e0]] eqn:Hprimary.
  2: { destruct (endpointsFromHttpProxy_succeeds p hp Hparse) as [eps Heps].
       by rewrite Hprimary in Heps. }
  rewrite Endpoints_generate_outcome, Hprimary. cbn [outcome snd].
  destruct (fqdnTemplate sc) as [tmpl|] eqn:Htmpl; [|done].
  destruct (combineFQDNAnnotation sc || (length eps =? 0)%nat) eqn:Hcond;
    [|done].
  destruct (outcome (endpointsFromTemplate sc tmpl hp)) as [teps|e1] eqn:Ht;
    [done|].
  intros [= ->].
  destruct (tmpl hp) as [rendered|err] eqn:Hrender.
  { destruct (endpointsFromTemplate_outcome_Err sc tmpl hp e Ht) as [Hbad|Hbad].
    - by rewrite Hrender in Hbad.
    - congruence. }
  exists tmpl, err.
  rewrite (endpointsFromTemplate_Err sc tmpl hp err Hrender) in Ht.
  injection Ht as <-. repeat split; try done.
  apply (Endpoints_generate_executes sc hp hp t eps Hprimary).
  split; [done|]. by apply (rendersTemplate_cond sc eps tmpl Htmpl).
Qed.

Lemma Endpoints_loop_error hps endpoints e :
  outcome (Endpoints_loop sc hps endpoints) = Err e →
  ∃ hp, hp ∈ hps ∧ outcome (Endpoints_body sc hp) = Err e
        ∧ ∀ ev, ev ∈ trace (Endpoints_body sc hp) →
                ev ∈ trace (Endpoints_loop sc hps endpoints).
Proof.
  revert endpoints. induction hps as [|hp hps IH]; intros endpoints; [done|].
  rewrite Endpoints_loop_cons. cbn [Endpoints_loop].
  destruct (outcome (Endpoints_body sc hp)) as [eps|e0] eqn:Hbody.
  - intros Hrest. destruct (IH _ Hrest) as (hp' & Hin & Herr & Htrace).
    exists hp'. split; [by apply list_elem_of_further|]. split; [done|].
    intros ev Hev. rewrite trace_bind, Hbody, elem_of_app. right. by apply Htrace.
  - intros [= ->]. exists hp. split; [apply list_elem_of_here|]. split; [done|].
    intros ev Hev. rewrite trace_bind, elem_of_app. by left.
Qed.

Lemma Endpoints_loop_executes hps endpoints hp' :
  ExecuteTemplate hp' ∈ trace (Endpoints_loop sc hps endpoints) →
  hp' ∈ hps ∧ ExecuteTemplate hp' ∈ trace (Endpoints_body sc hp').
Proof.
  revert endpoints. induction hps as [|hp hps IH]; intros endpoints.
  - intros Hin. by apply elem_of_nil in Hin.
  - cbn [Endpoints_loop]. rewrite trace_bind, elem_of_app. intros [Hin|Hin].
    + destruct (Endpoints_body_executes hp hp' Hin) as [-> _].
      split; [apply list_elem_of_here|done].
    + destruct (outcome (Endpoints_body sc hp)); [|by apply elem_of_nil in Hin].
      destruct (IH _ Hin). split; [by apply list_elem_of_further|done].
Qed.
End ErrorSources.

(** ** The constructor *)

(** What holds of a source that the constructor returned. *)
Lemma NewContourHTTPProxySource_Ok `{SourcePackage}
    (parseTemplate : string → result Template)
    (client : string → string → result Service)
    (informer : string → result (list HTTPProxy)) (synced : option error)
    (service ns filter template : string) (combine ignore health : bool)
    (out : list string) (sc : httpProxySource) :
  NewContourHTTPProxySource parseTemplate client informer synced
    service ns filter template combine ignore health = (out, Ok sc) →
  (∃ p, parseContourLoadBalancerService (contourLoadBalancerService sc) = Ok p)
  ∧ httpProxyInformer sc = informer ∧ namespace sc = ns
  ∧ ((template = "" ∧ fqdnTemplate sc = None)
     ∨ (template ≠ "" ∧ ∃ tmpl, parseTemplate template = Ok tmpl
                                ∧ fqdnTemplate sc = Some tmpl)).
Proof.
  unfold NewContourHTTPProxySource.
  destruct (String.eqb_spec template "") as [Hempty|Hne]; cbn [negb].
  - destruct (parseContourLoadBalancerService service) as [p|] eqn:Hsvc;
      [|done].
    destruct synced; [done|]. intros [= _ <-]. cbn. rewrite Hsvc. eauto 10.
  - destruct (parseTemplate template) as [tmpl|] eqn:Htmpl; [|done].
    destruct (parseContourLoadBalancerService service) as [p|] eqn:Hsvc;
      [|done].
    destruct synced; [done|]. intros [= _ <-]. cbn. rewrite Hsvc. eauto 10.
Qed.

(** X5. [NewContourHTTPProxySource] returns a source only if the service
    string parses and the informer cache was synced; the source has a
    template exactly when the template string is not empty, and then it
    is the parsed template, an empty string being never handed to the
    template parser; the other fields are the arguments, and one line
    is printed.  When it fails it prints nothing and the error is the
    first of: the template does not parse, the service string does not
    parse, the cache did not sync. *)
Theorem NewContourHTTPProxySource_checks `{SourcePackage}
    (parseTemplate : string → result Template)
    (client : string → string → result Service)
    (informer : string → result (list HTTPProxy)) (synced : option error)
    (service ns filter template : string) (combine ignore health : bool) :
  match NewContourHTTPProxySource parseTemplate client informer synced
          service ns filter template combine ignore health with
  | (out, Ok sc) =>
      out = ["creating httpproxy source with namespace " +:+ ns +:+ " "
               +:+ String "010" ""]
      ∧ (∃ p, parseContourLoadBalancerService (contourLoadBalancerService sc)
              = Ok p)
      ∧ synced = None
      ∧ ((template = "" ∧ fqdnTemplate sc = None)
         ∨ (template ≠ "" ∧ ∃ tmpl, parseTemplate template = Ok tmpl
                                    ∧ fqdnTemplate sc = Some tmpl))
      ∧ kubeClient sc = client ∧ httpProxyInformer sc = informer
      ∧ contourLoadBalancerService sc = service ∧ namespace sc = ns
      ∧ annotationFilter sc = filter
      ∧ combineFQDNAnnotation sc = combine
      ∧ ignoreHostnameAnnotation sc = ignore
  | (out, Err e) =>
      out = []
      ∧ ((template ≠ "" ∧ parseTemplate template = Err e)
         ∨ ((template = "" ∨ is_Err (parseTemplate template) = false)
            ∧ (parseContourLoadBalancerService service = Err e
               ∨ (is_Err (parseContourLoadBalancerService service) = false
                  ∧ ∃ err, synced = Some err
                           ∧ e = "failed to sync cache: " +:+ err))))
  end.
Proof.
  unfold NewContourHTTPProxySource.
  destruct (String.eqb_spec template "") as [Hempty|Hne]; cbn [negb].
  - destruct (parseContourLoadBalancerService service) as [p|e] eqn:Hsvc.
    + destruct synced as [err|].
      * split; [done|]. right. split; [by left|]. right. split; [done|].
        by exists err.
      * cbn. rewrite Hsvc. repeat split; eauto.
    + split; [done|]. right. split; [by left|by left].
  - destruct (parseTemplate template) as [tmpl|e] eqn:Htmpl.
    + destruct (parseContourLoadBalancerService service) as [p|e] eqn:Hsvc.
      * destruct synced as [err|].
        -- split; [done|]. right. split; [by right|]. right. split; [done|].
           by exists err.
        -- cbn. rewrite Hsvc. repeat split; eauto.
      * split; [done|]. right. split; [by right|by left].
    + split; [done|]. by left.
Qed.

(** X6. On a source that [NewContourHTTPProxySource] returned, target
    resolution can no longer fail, so [Endpoints] returns an error only
    when the listing fails, when the annotation filter does not parse, or
    when the template, which was then given to the constructor and
    parsed, fails on a resource it was executed on; the error is then
    the one of the listing, of the filter, or the wrapped template
    error. *)
Theorem constructed_source_errors `{SourcePackage} `{LabelsLibrary}
    (parseTemplate : string → result Template)
    (client : string → string → result Service)
    (informer : string → result (list HTTPProxy)) (synced : option error)
    (service ns filter template : string) (combine ignore health : bool)
    (out : list string) (sc : httpProxySource) (e : error) :
  NewContourHTTPProxySource parseTemplate client informer synced
    service ns filter template combine ignore health = (out, Ok sc) →
  outcome (Endpoints sc) = Err e →
  informer ns = Err e
  ∨ (∃ hps, informer ns = Ok hps ∧ filterByAnnotations sc hps = Err e)
  ∨ (∃ tmpl hp err,
       template ≠ "" ∧ parseTemplate template = Ok tmpl
       ∧ tmpl hp = Err err ∧ e = templateError hp err
       ∧ ExecuteTemplate hp ∈ trace (Endpoints sc)).
Proof.
  intros Hnew.
  destruct (NewContourHTTPProxySource_Ok parseTemplate client informer
              synced service ns filter template combine ignore health out sc
              Hnew) as ([p Hparse] & Hinformer & Hns & Htmpl).
  rewrite Endpoints_outcome, Endpoints_trace, Hinformer, Hns.
  destruct (informer ns) as [hps|e0]; [|intros [= ->]; by left].
  destruct (filterByAnnotations sc hps) as [hps'|e0] eqn:Hfilter;
    [|intros [= ->]; right; left; by exists hps].
  destruct (outcome (Endpoints_loop sc hps' [])) as [eps|e0] eqn:Hloop; [done|].
  intros [= ->]. right. right.
  destruct (Endpoints_loop_error sc hps' [] e Hloop)
    as (hp & _ & Hbody & Htrace).
  destruct (Endpoints_body_error sc p hp e Hparse Hbody)
    as (tmpl & err & Hsome & Hrender & -> & Hexec).
  destruct Htmpl as [[_ Hnone]|(Hne & tmpl' & Hparsed & Hsome')];
    [congruence|].
  exists tmpl, hp, err. repeat split; try done; [congruence|].
  apply list_elem_of_further. by apply Htrace.
Qed.

Lemma constructed_source_errors_witness :
  Cluster.cache [Samples.hostless] ""
  = Err (templateError Samples.hostless
           "can't evaluate field Nme in type *v1.HTTPProxy")
  ∨ (∃ hps,
       Cluster.cache [Samples.hostless] "" = Ok hps
       ∧ filterByAnnotations (H0 := Model.labelsLibrary)
           (Samples.source Samples.withEnvoy ""
              (Some Samples.brokenTemplate) false [Samples.hostless]) hps
         = Err (templateError Samples.hostless
                  "can't evaluate field Nme in type *v1.HTTPProxy"))
  ∨ (∃ tmpl hp err,
       "{{.Nme}}.example.com" ≠ ""
       ∧ Cluster.parsesButFails "{{.Nme}}.example.com" = Ok tmpl
       ∧ tmpl hp = Err err
       ∧ templateError Samples.hostless
           "can't evaluate field Nme in type *v1.HTTPProxy"
         = templateError hp err
       ∧ ExecuteTemplate hp
           ∈ trace (Endpoints (H := Model.sourcePackage)
                      (H0 := Model.labelsLibrary)
                      (Samples.source Samples.withEnvoy ""
                         (Some Samples.brokenTemplate) false
                         [Samples.hostless]))).
Proof.
  apply (constructed_source_errors
           (H := Model.sourcePackage) (H0 := Model.labelsLibrary)
           Cluster.parsesButFails Samples.withEnvoy
           (Cluster.cache [Samples.hostless]) None
           "projectcontour/envoy" "" "" "{{.Nme}}.example.com" false false
           false
           ["creating httpproxy source with namespace  " +:+ String "010" ""]
           (Samples.source Samples.withEnvoy "" (Some Samples.brokenTemplate)
              false [Samples.hostless])
           (templateError Samples.hostless
              "can't evaluate field Nme in type *v1.HTTPProxy")).
  - reflexivity.
  - vm_compute. reflexivity.
Defined.

(** ** When the template is rendered *)

(** X7. During a pass the template is executed only on resources of the
    listed snapshot that pass the gate, only when a template is
    configured, and for each such resource only after its primary path
    returned, in combine mode or with no endpoint; a skipped resource is
    never handed to the template. *)
Theorem Endpoints_executes_only_eligible `{SourcePackage} `{LabelsLibrary}
    (sc : httpProxySource) (hp : HTTPProxy) :
  ExecuteTemplate hp ∈ trace (Endpoints sc) →
  (∃ hps, httpProxyInformer sc (namespace sc) = Ok hps ∧ hp ∈ hps)
  ∧ controllerMismatch hp = false
  ∧ CurrentStatus (Status_ hp) = "valid"
  ∧ is_Some (fqdnTemplate sc)
  ∧ (combineFQDNAnnotation sc = true
     ∨ outcome (endpointsFromHttpProxy sc hp) = Ok []).
Proof.
  rewrite Endpoints_trace, elem_of_cons. intros [[=]|Hin].
  destruct (httpProxyInformer sc (namespace sc)) as [hps|];
    [|by apply elem_of_nil in Hin].
  destruct (filterByAnnotations sc hps) as [hps'|] eqn:Hfilter;
    [|by apply elem_of_nil in Hin].
  destruct (Endpoints_loop_executes sc hps' [] hp Hin) as [Hhp Hbody].
  destruct (Endpoints_body_executes sc hp hp Hbody)
    as (_ & Hctl & Hvalid & eps & Hprimary & Hsome & Hcond).
  split; [|repeat split; try done].
  - exists hps. split; [done|]. by eapply filterByAnnotations_elem.
  - destruct Hcond as [?| ->]; [by left|by right].
Qed.

Lemma Endpoints_executes_only_eligible_witness :
  controllerMismatch (H := Model.sourcePackage) Samples.hostless = false
  ∧ is_Some (Some Samples.nameTemplate)
  ∧ (false = true
     ∨ outcome (endpointsFromHttpProxy (H := Model.sourcePackage)
                  (Samples.source Samples.withEnvoy ""
                     (Some Samples.nameTemplate) false
                     [Samples.foreign; Samples.hostless])
                  Samples.hostless) = Ok []).
Proof.
  destruct (Endpoints_executes_only_eligible
              (H := Model.sourcePackage) (H0 := Model.labelsLibrary)
              (Samples.source Samples.withEnvoy "" (Some Samples.nameTemplate)
                 false [Samples.foreign; Samples.hostless])
              Samples.hostless)
    as (_ & Hctl & _ & Hsome & Hcond).
  - apply list_elem_of_In. vm_compute.
    repeat (first [left; reflexivity | right]).
  - repeat split; assumption.
Defined.

(** ** How the loop puts the result together *)

Lemma M_parts {A} (m : M A) : m = (trace m, outcome m).
Proof. by destruct m. Qed.

Section LoopShape.
Context `{SourcePackage} `{LabelsLibrary}.
Variable sc : httpProxySource.

Lemma Endpoints_loop_Ok hps endpoints eps :
  outcome (Endpoints_loop sc hps endpoints) = Ok eps
  ↔ ∃ parts,
      Forall2 (fun hp part => outcome (Endpoints_body sc hp) = Ok part) hps parts
      ∧ eps = endpoints ++ concat parts.
Proof.
  revert endpoints. induction hps as [|hp hps IH]; intros endpoints.
  - simpl. split.
    + intros [= <-]. exists []. split; [constructor|]. by rewrite app_nil_r.
    + intros (parts & Hparts & ->). apply Forall2_nil_inv_l in Hparts as ->.
      simpl. by rewrite app_nil_r.
  - rewrite Endpoints_loop_cons. split.
    + destruct (outcome (Endpoints_body sc hp)) as [part|] eqn:Hbody; [|done].
      intros (parts & Hparts & ->)%IH. exists (part :: parts).
      split; [by constructor|]. simpl. by rewrite app_assoc.
    + intros (parts & Hparts & ->).
      apply Forall2_cons_inv_l in Hparts as (part & parts' & Hbody & Hparts & ->).
      rewrite Hbody. apply IH. exists parts'. split; [done|].
      simpl. by rewrite app_assoc.
Qed.

Lemma Endpoints_loop_stops hps1 hp hps2 endpoints e :
  Forall (fun h => is_Err (outcome (Endpoints_body sc h)) = false) hps1 →
  outcome (Endpoints_body sc hp) = Err e →
  Endpoints_loop sc (hps1 ++ hp :: hps2) endpoints
  = (flat_map (fun h => trace (Endpoints_body sc h)) hps1
       ++ trace (Endpoints_body sc hp),
     Err e).
Proof.
  intros Hok Hfail. revert endpoints.
  induction Hok as [|h hps1 Hh _ IH]; intros endpoints.
  - cbn [app flat_map Endpoints_loop].
    rewrite (M_parts (Endpoints_body sc hp)), Hfail. reflexivity.
  - cbn [app flat_map Endpoints_loop].
    destruct (Endpoints_body sc h) as [t [part|e0]] eqn:Hbody; [|done].
    rewrite (bind_Ok _ _ t part eq_refl), IH. cbn [trace outcome fst snd].
    by rewrite app_assoc.
Qed.
End LoopShape.

(** X8. [Endpoints] succeeds exactly when the listing, the filter and the
    iteration of every filtered resource succeed, and what it returns is
    then the endpoints of the iterations, concatenated in the order of
    the filtered snapshot, with the targets of each sorted: the endpoints
    of one resource stay together and in the order its iteration gave
    them. *)
Theorem Endpoints_concatenates `{SourcePackage} `{LabelsLibrary}
    (sc : httpProxySource) (eps : list Endpoint) :
  outcome (Endpoints sc) = Ok eps
  ↔ ∃ hps filtered parts,
      httpProxyInformer sc (namespace sc) = Ok hps
      ∧ filterByAnnotations sc hps = Ok filtered
      ∧ Forall2 (fun hp part => outcome (Endpoints_body sc hp) = Ok part)
          filtered parts
      ∧ eps = sortAll (concat parts).
Proof.
  rewrite Endpoints_outcome. split.
  - destruct (httpProxyInformer sc (namespace sc)) as [hps|]; [|done].
    destruct (filterByAnnotations sc hps) as [filtered|] eqn:Hfilter; [|done].
    destruct (outcome (Endpoints_loop sc filtered [])) as [endpoints|] eqn:Hloop;
      [|done].
    intros [= <-]. apply Endpoints_loop_Ok in Hloop as (parts & Hparts & ->).
    exists hps, filtered, parts. repeat split; done.
  - intros (hps & filtered & parts & -> & -> & Hparts & ->).
    assert (outcome (Endpoints_loop sc filtered []) = Ok (concat parts)) as ->;
      [|done].
    apply Endpoints_loop_Ok. by exists parts.
Qed.

Lemma Endpoints_concatenates_witness :
  ∃ hps filtered parts,
    Cluster.cache [Samples.plain; Samples.invalid; Samples.annotated] ""
    = Ok hps
    ∧ filterByAnnotations (H0 := Model.labelsLibrary)
        (Samples.source Samples.withEnvoy "" None false
           [Samples.plain; Samples.invalid; Samples.annotated]) hps
      = Ok filtered
    ∧ Forall2
        (fun hp part =>
           outcome (Endpoints_body (H := Model.sourcePackage)
                      (Samples.source Samples.withEnvoy "" None false
                         [Samples.plain; Samples.invalid; Samples.annotated])
                      hp) = Ok part)
        filtered parts
    ∧ [Samples.expected "a.com" "A" ["10.0.0.1"] (-1)%Z "foo";
       Samples.expected "a.com" "CNAME" ["lb.example.com"] (-1)%Z "foo";
       Samples.expected "b.com" "A" ["1.2.3.4"; "5.6.7.8"] (-1)%Z "bar"]
      = sortAll (concat parts).
Proof.
  apply (Endpoints_concatenates
           (H := Model.sourcePackage) (H0 := Model.labelsLibrary)
           (Samples.source Samples.withEnvoy "" None false
              [Samples.plain; Samples.invalid; Samples.annotated])).
  vm_compute. reflexivity.
Defined.

(** X9. A pass stops at the first resource whose iteration fails: when
    the resources before it in the filtered snapshot all succeed,
    [Endpoints] returns the error of that iteration and no endpoint, and
    its trace ends with the trace of that iteration, whatever comes after
    it in the snapshot. *)
Theorem Endpoints_stops_at_first_error `{SourcePackage} `{LabelsLibrary}
    (sc : httpProxySource) (hps before after : list HTTPProxy)
    (hp : HTTPProxy) (e : error) :
  httpProxyInformer sc (namespace sc) = Ok hps →
  filterByAnnotations sc hps = Ok (before ++ hp :: after) →
  Forall (fun h => is_Err (outcome (Endpoints_body sc h)) = false) before →
  outcome (Endpoints_body sc hp) = Err e →
  Endpoints sc
  = (ListHTTPProxies (namespace sc)
       :: flat_map (fun h => trace (Endpoints_body sc h)) before
       ++ trace (Endpoints_body sc hp),
     Err e).
Proof.
  intros Hlist Hfilter Hbefore Hfail.
  unfold Endpoints. rewrite emit_bind, Hlist, Hfilter.
  by rewrite (bind_Err _ _ _ _
                (Endpoints_loop_stops sc before hp after [] e Hbefore Hfail)).
Qed.

Lemma Endpoints_stops_at_first_error_witness :
  Endpoints (H := Model.sourcePackage) (H0 := Model.labelsLibrary)
    (Samples.source Samples.withEnvoy "" (Some Samples.brokenTemplate) false
       [Samples.annotated; Samples.hostless; Samples.plain])
  = ([ListHTTPProxies "";
      Debugf "Endpoints generated from httpproxy: %s/%s: %v" Samples.annotated;
      GetService "projectcontour" "envoy";
      ExecuteTemplate Samples.hostless],
     Err "failed to apply template on HTTPProxy default/foo: can't evaluate field Nme in type *v1.HTTPProxy").
Proof.
  apply (Endpoints_stops_at_first_error
           (H := Model.sourcePackage) (H0 := Model.labelsLibrary)
           (Samples.source Samples.withEnvoy "" (Some Samples.brokenTemplate)
              false [Samples.annotated; Samples.hostless; Samples.plain])
           [Samples.annotated; Samples.hostless; Samples.plain]
           [Samples.annotated] [Samples.plain] Samples.hostless).
  - reflexivity.
  - reflexivity.
  - repeat constructor.
  - reflexivity.
Defined.

(** ** Where an endpoint comes from *)

Section Provenance.
Context `{SourcePackage}.
Variable sc : httpProxySource.

Lemma elem_of_assemble hp targets ttl hostnames raw :
  raw ∈ assemble hp targets ttl hostnames
  ↔ ∃ hostname,
      hostname ∈ hostnames
      ∧ raw ∈ endpointsForHostname hostname targets ttl
                (getProviderSpecificAnnotations (Annotations hp)).1
                (getProviderSpecificAnnotations (Annotations hp)).2.
Proof.
  unfold assemble. rewrite list_elem_of_In, in_flat_map.
  split; intros (hostname & Hh & Hraw); exists hostname;
    by rewrite ?list_elem_of_In in *.
Qed.

Lemma endpointsFromHttpProxy_elem hp eps raw :
  CurrentStatus (Status_ hp) = "valid" →
  outcome (endpointsFromHttpProxy sc hp) = Ok eps → raw ∈ eps →
  ∃ hostname targets,
    outcome (resolveTargets sc hp) = Ok targets
    ∧ hostname ∈ primaryHostnames sc hp
    ∧ raw ∈ endpointsForHostname hostname targets
              (getTTLFromAnnotations (Annotations hp)).1
              (getProviderSpecificAnnotations (Annotations hp)).1
              (getProviderSpecificAnnotations (Annotations hp)).2.
Proof.
  intros Hvalid.
  rewrite (endpointsFromHttpProxy_valid sc hp Hvalid), outcome_assembling.
  destruct (outcome (resolveTargets sc hp)) as [targets|]; [|done].
  intros [= <-] (hostname & Hh & Hraw)%elem_of_assemble.
  by exists hostname, targets.
Qed.

Lemma endpointsFromTemplate_elem tmpl hp eps raw :
  outcome (endpointsFromTemplate sc tmpl hp) = Ok eps → raw ∈ eps →
  ∃ rendered hostname targets,
    tmpl hp = Ok rendered
    ∧ outcome (resolveTargets sc hp) = Ok targets
    ∧ hostname ∈ templateHostnames rendered
    ∧ raw ∈ endpointsForHostname hostname targets
              (getTTLFromAnnotations (Annotations hp)).1
              (getProviderSpecificAnnotations (Annotations hp)).1
              (getProviderSpecificAnnotations (Annotations hp)).2.
Proof.
  destruct (tmpl hp) as [rendered|e] eqn:Hrender.
  - rewrite (endpointsFromTemplate_Ok sc tmpl hp rendered Hrender).
    rewrite emit_bind. unfold outcome at 1. cbn [snd].
    rewrite outcome_assembling.
    destruct (outcome (resolveTargets sc hp)) as [targets|]; [|done].
    intros [= <-] (hostname & Hh & Hraw)%elem_of_assemble.
    by exists rendered, hostname, targets.
  - by rewrite (endpointsFromTemplate_Err sc tmpl hp e Hrender).
Qed.
End Provenance.

(** X10. Every endpoint that the iteration of a resource returns is an
    endpoint that [endpointsForHostname] assembled for a hostname of that
    resource, with the resolved targets, the TTL and the
    provider-specific annotations and set identifier of the resource, and
    with the resource label put on top; the hostname is one of the
    primary path or one the configured template rendered for the
    resource. *)
Theorem Endpoints_body_provenance `{SourcePackage}
    (sc : httpProxySource) (hp : HTTPProxy) (eps : list Endpoint)
    (ep : Endpoint) :
  outcome (Endpoints_body sc hp) = Ok eps →
  ep ∈ eps →
  ∃ raw, assembledFor sc hp raw
         ∧ ep = withLabel raw ResourceLabelKey (resourceLabel hp).
Proof.
  unfold Endpoints_body.
  destruct (controllerMismatch hp).
  { rewrite emit_bind. intros [= <-] Hin. by apply elem_of_nil in Hin. }
  destruct (String.eqb_spec (CurrentStatus (Status_ hp)) "valid") as [Hv|Hv];
    cbn [negb].
  2: { rewrite emit_bind. intros [= <-] Hin. by apply elem_of_nil in Hin. }
  rewrite Endpoints_generate_outcome.
  destruct (outcome (endpointsFromHttpProxy sc hp)) as [eps0|] eqn:Hprimary;
    [|done].
  assert (∀ X, (∀ raw, raw ∈ X → assembledFor sc hp raw) →
               Ok (setResourceLabel hp X) = Ok eps → ep ∈ eps →
               ∃ raw, assembledFor sc hp raw
                      ∧ ep = withLabel raw ResourceLabelKey (resourceLabel hp))
    as Hlabel.
  { intros X HX [= <-] Hin. unfold setResourceLabel in Hin.
    apply list_elem_of_fmap in Hin as (raw & -> & Hraw).
    exists raw. split; [by apply HX|done]. }
  assert (∀ raw, raw ∈ eps0 → assembledFor sc hp raw) as Hprim.
  { intros raw Hraw.
    destruct (endpointsFromHttpProxy_elem sc hp eps0 raw Hv Hprimary Hraw)
      as (hostname & targets & ? & ? & ?).
    exists hostname, targets. repeat split; try done. by left. }
  destruct (fqdnTemplate sc) as [tmpl|] eqn:Htmpl; [|by apply Hlabel].
  destruct (combineFQDNAnnotation sc || (length eps0 =? 0)%nat);
    [|by apply Hlabel].
  destruct (outcome (endpointsFromTemplate sc tmpl hp)) as [teps|] eqn:Ht;
    [|done].
  assert (∀ raw, raw ∈ teps → assembledFor sc hp raw) as Htmplfrom.
  { intros raw Hin.
    destruct (endpointsFromTemplate_elem sc tmpl hp teps raw Ht Hin)
      as (rendered & hostname & targets & ? & ? & ? & ?).
    exists hostname, targets. repeat split; try done.
    right. by exists tmpl, rendered. }
  apply Hlabel. intros raw Hraw.
  destruct (combineFQDNAnnotation sc); [|by apply Htmplfrom].
  apply elem_of_app in Hraw as [Hraw|Hraw]; [by apply Hprim|by apply Htmplfrom].
Qed.

Lemma Endpoints_body_provenance_witness :
  ∃ raw,
    assembledFor (H := Model.sourcePackage)
      (Samples.source Samples.withEnvoy "" None false []) Samples.annotated raw
    ∧ Samples.expected "b.com" "A" ["1.2.3.4"; "5.6.7.8"] (-1)%Z "bar"
      = withLabel raw Model.ResourceLabelKey
          (resourceLabel Samples.annotated).
Proof.
  apply (Endpoints_body_provenance (H := Model.sourcePackage)
           (Samples.source Samples.withEnvoy "" None false [])
           Samples.annotated
           [Samples.expected "b.com" "A" ["1.2.3.4"; "5.6.7.8"] (-1)%Z "bar"]).
  - vm_compute. reflexivity.
  - apply list_elem_of_here.
Defined.

(** ** The final sort *)

Lemma sortTargets_idempotent (ts : Targets) :
  sortTargets (sortTargets ts) = sortTargets ts.
Proof.
  apply sortTargets_Permutation. unfold sortTargets.
  apply merge_sort_Permutation.
Qed.

(** X11. The sort at the end of [Endpoints] changes nothing but the order
    of the targets within each endpoint: it keeps the number and the
    order of the endpoints and every other field, it keeps every target
    with its multiplicity, and applying it again changes nothing, so that
    what [Endpoints] returns is a fixed point of it. *)
Theorem sortAll_only_reorders_targets `{SourcePackage} `{LabelsLibrary}
    (unsorted : list Endpoint) :
  Forall2 sameUpToTargetOrder unsorted (sortAll unsorted)
  ∧ sortAll (sortAll unsorted) = sortAll unsorted
  ∧ ∀ sc eps, outcome (Endpoints sc) = Ok eps → sortAll eps = eps.
Proof.
  assert (∀ l, sortAll (sortAll l) = sortAll l) as Hall.
  { intros l. unfold sortAll. rewrite map_map. apply map_ext.
    intros ep. unfold withTargets. simpl. by rewrite sortTargets_idempotent. }
  split; [|split; [apply Hall|]].
  - unfold sortAll. induction unsorted as [|ep eps IH]; simpl; [constructor|].
    constructor; [|exact IH].
    split; [done|]. simpl. unfold sortTargets.
    by rewrite merge_sort_Permutation.
  - intros sc eps. rewrite Endpoints_outcome.
    destruct (httpProxyInformer sc (namespace sc)) as [hps|]; [|done].
    destruct (filterByAnnotations sc hps) as [hps'|]; [|done].
    destruct (outcome (Endpoints_loop sc hps' [])) as [endpoints|]; [|done].
    intros [= <-]. apply Hall.
Qed.

(** ** The resource label *)

(** X12. [setResourceLabel] writes the label of its resource over
    whatever resource label an endpoint carried, so that labelling for
    one resource and then for another leaves the label of the second;
    it keeps the number and the order of the endpoints, every label under
    another key and every other field. *)
Theorem setResourceLabel_overwrites `{SourcePackage}
    (hp hp' : HTTPProxy) (eps : list Endpoint) :
  setResourceLabel hp (setResourceLabel hp' eps) = setResourceLabel hp eps
  ∧ Forall2
      (fun ep labelled =>
         Labels labelled !! ResourceLabelKey = Some (resourceLabel hp)
         ∧ (∀ k, k ≠ ResourceLabelKey → Labels labelled !! k = Labels ep !! k)
         ∧ DNSName labelled = DNSName ep ∧ Targets_ labelled = Targets_ ep
         ∧ RecordType labelled = RecordType ep
         ∧ SetIdentifier labelled = SetIdentifier ep
         ∧ RecordTTL labelled = RecordTTL ep
         ∧ ProviderSpecific_ labelled = ProviderSpecific_ ep)
      eps (setResourceLabel hp eps).
Proof.
  split.
  - unfold setResourceLabel. rewrite map_map. apply map_ext.
    intros ep. unfold withLabel. simpl. by rewrite insert_insert_eq.
  - unfold setResourceLabel.
    induction eps as [|ep eps IH]; simpl; [constructor|].
    constructor; [|exact IH].
    simpl. split; [apply lookup_insert_eq|].
    split; [|done]. intros k Hk. by apply lookup_insert_ne.
Qed.

(** ** The hostnames of a rendered template *)

Section TemplateStrings.
Import strings.

Lemma length_Split s sep : length (Split s sep) = S (countByte s sep).
Proof.
  induction s as [|a s IH]; [done|]. simpl.
  destruct (Ascii.eqb a sep); simpl; [by rewrite IH|].
  destruct (Split s sep) as [|h t]; simpl in *; lia.
Qed.

Lemma countByte_ReplaceAllEmpty s old c :
  Ascii.eqb old c = false →
  countByte (ReplaceAllEmpty s old) c = countByte s c.
Proof.
  intros Hne. induction s as [|a s IH]; [done|]. simpl.
  destruct (Ascii.eqb a old) eqn:Ha.
  - apply Ascii.eqb_eq in Ha as ->. by rewrite Hne, IH.
  - simpl. by rewrite IH.
Qed.

Lemma ReplaceAllEmpty_id s c :
  ContainsByte s c = false → ReplaceAllEmpty s c = s.
Proof.
  induction s as [|a s IH]; [done|]. simpl.
  intros [Ha Hs]%orb_false_iff. by rewrite Ha, IH.
Qed.

Lemma ReplaceAllEmpty_app s t c :
  ReplaceAllEmpty (s +:+ t) c = ReplaceAllEmpty s c +:+ ReplaceAllEmpty t c.
Proof.
  induction s as [|a s IH]; [done|]. rewrite app_String. simpl.
  destruct (Ascii.eqb a c); [done|]. by rewrite IH.
Qed.

Lemma Split_id s sep : ContainsByte s sep = false → Split s sep = [s].
Proof.
  induction s as [|a s IH]; [done|]. simpl.
  intros [Ha Hs]%orb_false_iff. by rewrite Ha, IH.
Qed.

Lemma Split_app s t sep :
  ContainsByte s sep = false →
  Split (s +:+ String sep t) sep = s :: Split t sep.
Proof.
  induction s as [|a s IH].
  - intros _. rewrite app_empty_l. simpl. by rewrite Ascii.eqb_refl.
  - intros Hc. simpl in Hc. apply orb_false_iff in Hc as [Ha Hs].
    rewrite app_String. simpl. by rewrite Ha, IH.
Qed.

(** A comma-separated list of pieces that have no comma splits back into
    the pieces. *)
Lemma Split_concat (pieces : list string) :
  pieces ≠ [] →
  Forall (fun p => ContainsByte p "," = false) pieces →
  Split (String.concat "," pieces) "," = pieces.
Proof.
  intros Hne Hall. induction Hall as [|p pieces Hp Hall IH]; [done|].
  destruct pieces as [|q pieces].
  - simpl. by apply Split_id.
  - change (String.concat "," (p :: q :: pieces))
      with (p +:+ String "," (String.concat "," (q :: pieces))).
    rewrite Split_app by done. f_equal. by apply IH.
Qed.

Lemma ReplaceAllEmpty_concat (pieces : list string) :
  Forall (fun p => ContainsByte p " " = false) pieces →
  ReplaceAllEmpty (String.concat ", " pieces) " " = String.concat "," pieces.
Proof.
  intros Hall. induction Hall as [|p pieces Hp Hall IH]; [done|].
  destruct pieces as [|q pieces].
  - simpl. by apply ReplaceAllEmpty_id.
  - change (String.concat ", " (p :: q :: pieces))
      with (p +:+ String "," (String " " (String.concat ", " (q :: pieces)))).
    change (String.concat "," (p :: q :: pieces))
      with (p +:+ String "," (String.concat "," (q :: pieces))).
    rewrite ReplaceAllEmpty_app, (ReplaceAllEmpty_id p) by done.
    f_equal.
    change (ReplaceAllEmpty
              (String "," (String " " (String.concat ", " (q :: pieces)))) " ")
      with (String ","
              (ReplaceAllEmpty (String.concat ", " (q :: pieces)) " ")).
    by rewrite IH.
Qed.
End TemplateStrings.

(** X13. The template path hands one hostname more to
    [endpointsForHostname] than the rendered output has commas, so at
    least one: an output that is empty or made of spaces gives the single
    empty hostname. *)
Theorem templateHostnames_count (rendered : string) :
  length (templateHostnames rendered) = S (countByte rendered ",")
  ∧ (strings.ReplaceAllEmpty rendered " " = "" →
     templateHostnames rendered = [""]).
Proof.
  unfold templateHostnames. split.
  - by rewrite length_map, length_Split, countByte_ReplaceAllEmpty.
  - by intros ->.
Qed.

Lemma ReplaceAllEmpty_concat_comma (pieces : list string) :
  Forall (fun p => strings.ContainsByte p " " = false) pieces →
  strings.ReplaceAllEmpty (String.concat "," pieces) " "
  = String.concat "," pieces.
Proof.
  intros Hall. induction Hall as [|p pieces Hp Hall IH]; [done|].
  destruct pieces as [|q pieces].
  - simpl. by apply ReplaceAllEmpty_id.
  - change (String.concat "," (p :: q :: pieces))
      with (p +:+ String "," (String.concat "," (q :: pieces))).
    rewrite ReplaceAllEmpty_app, (ReplaceAllEmpty_id p) by done.
    f_equal.
    change (strings.ReplaceAllEmpty
              (String "," (String.concat "," (q :: pieces))) " ")
      with (String ","
              (strings.ReplaceAllEmpty (String.concat "," (q :: pieces)) " ")).
    by rewrite IH.
Qed.

(** X14. Hostnames that have no comma, no space and no trailing period
    come back from the template path as they were rendered: joined with
    commas they are split into exactly the same list, and so are they
    when each is rendered as a fully qualified name with its trailing
    period and the list is joined with a comma and a space. *)
Theorem templateHostnames_round_trip (hostnames : list string) :
  hostnames ≠ [] →
  Forall (fun h => strings.ContainsByte h "," = false
                   ∧ strings.ContainsByte h " " = false
                   ∧ strings.HasSuffix h "." = false) hostnames →
  templateHostnames (String.concat "," hostnames) = hostnames
  ∧ templateHostnames
      (String.concat ", " (map (fun h => h +:+ ".") hostnames))
    = hostnames.
Proof.
  intros Hne Hall. unfold templateHostnames. split.
  - rewrite ReplaceAllEmpty_concat_comma, Split_concat; try done.
    + induction Hall as [|h hs (_ & _ & Hh) _ IH]; [done|].
      simpl. rewrite TrimSuffix_id by done. f_equal.
      destruct hs; [done|]. by apply IH.
    + eapply Forall_impl; [exact Hall|]. by intros h (? & _).
    + eapply Forall_impl; [exact Hall|]. by intros h (_ & ? & _).
  - rewrite ReplaceAllEmpty_concat, Split_concat.
    + rewrite map_map. clear. induction hostnames as [|h hs IH]; [done|].
      simpl. by rewrite TrimSuffix_app, IH.
    + by destruct hostnames.
    + apply Forall_fmap. eapply Forall_impl; [exact Hall|].
      intros h (Hc & _). simpl. rewrite ContainsByte_app, Hc. reflexivity.
    + apply Forall_fmap. eapply Forall_impl; [exact Hall|].
      intros h (_ & Hs & _). simpl. rewrite ContainsByte_app, Hs. reflexivity.
Qed.

Lemma templateHostnames_round_trip_witness :
  templateHostnames "a.example.com,b.example.com"
  = ["a.example.com"; "b.example.com"]
  ∧ templateHostnames "a.example.com., b.example.com."
    = ["a.example.com"; "b.example.com"].
Proof.
  apply (templateHostnames_round_trip ["a.example.com"; "b.example.com"]).
  - discriminate.
  - repeat constructor.
Defined.

(** ** The annotation filter *)

Lemma sublist_List_filter {X} (p : X → bool) (l : list X) :
  List.filter p l `sublist_of` l.
Proof.
  induction l as [|x l IH]; simpl; [constructor|].
  destruct (p x); by constructor.
Qed.

Lemma List_filter_idempotent {X} (p : X → bool) (l : list X) :
  List.filter p (List.filter p l) = List.filter p l.
Proof.
  induction l as [|x l IH]; simpl; [done|].
  destruct (p x) eqn:Hp; simpl; [|done]. by rewrite Hp, IH.
Qed.

(** X15. When the filter expression parses, [filterByAnnotations] keeps a
    sublist of the candidates, in their order; filtering what it kept
    again keeps all of it; and filtering two lists one after the other
    gives what filtering the first followed by the second gives, so
    whether a resource is kept does not depend on the other candidates. *)
Theorem filterByAnnotations_sublist `{LabelsLibrary}
    (sc : httpProxySource) (hps kept : list HTTPProxy) :
  filterByAnnotations sc hps = Ok kept →
  kept `sublist_of` hps
  ∧ filterByAnnotations sc kept = Ok kept
  ∧ ∀ more kept',
      filterByAnnotations sc more = Ok kept' →
      filterByAnnotations sc (hps ++ more) = Ok (kept ++ kept').
Proof.
  unfold filterByAnnotations.
  destruct (ParseToLabelSelector (annotationFilter sc)) as [ls|]; [|done].
  destruct (LabelSelectorAsSelector ls) as [sel|]; [|done].
  destruct (selector_Empty sel).
  - intros [= <-]. split; [done|]. split; [done|]. by intros more kept' [= <-].
  - rewrite !(fold_left_filter
                (fun hp => selector_Matches sel (Annotations hp))).
    rewrite !app_nil_l. intros [= <-].
    split; [apply sublist_List_filter|]. split.
    + by rewrite List_filter_idempotent.
    + intros more kept'.
      rewrite !(fold_left_filter
                  (fun hp => selector_Matches sel (Annotations hp))).
      rewrite !app_nil_l. intros [= <-]. by rewrite List.filter_app.
Qed.

Lemma filterByAnnotations_sublist_witness :
  [Samples.foreign]
    `sublist_of` [Samples.plain; Samples.foreign; Samples.annotated]
  ∧ filterByAnnotations (H0 := Model.labelsLibrary)
      (Samples.source Samples.withEnvoy
         "external-dns.alpha.kubernetes.io/controller=other-controller"
         None false [])
      [Samples.foreign]
    = Ok [Samples.foreign].
Proof.
  destruct (filterByAnnotations_sublist (H := Model.labelsLibrary)
              (Samples.source Samples.withEnvoy
                 "external-dns.alpha.kubernetes.io/controller=other-controller"
                 None false [])
              [Samples.plain; Samples.foreign; Samples.annotated]
              [Samples.foreign]) as (Hsub & Hagain & _).
  - vm_compute. reflexivity.
  - split; [exact Hsub|exact Hagain].
Defined.

(** ** A resource without a hostname of its own *)

(** X16. Take a resource that passes the gate, whose virtual host is
    missing or has an empty FQDN, and whose hostname annotation is
    ignored or gives no hostname.  When its targets resolve, the primary
    path returns no endpoint; the iteration then returns nothing if no
    template is configured, and otherwise falls back to the template:
    it fails with the wrapped error if the template fails, and returns
    the labelled endpoints of the rendered hostnames if not, in combine
    mode or not. *)
Theorem hostless_resource_falls_back_to_template `{SourcePackage}
    (sc : httpProxySource) (hp : HTTPProxy) (targets : Targets) :
  controllerMismatch hp = false →
  CurrentStatus (Status_ hp) = "valid" →
  (VirtualHost_ (Spec hp) = None
   ∨ ∃ virtualHost, VirtualHost_ (Spec hp) = Some virtualHost
                    ∧ Fqdn virtualHost = "") →
  (ignoreHostnameAnnotation sc = true
   ∨ getHostnamesFromAnnotations (Annotations hp) = []) →
  outcome (resolveTargets sc hp) = Ok targets →
  outcome (endpointsFromHttpProxy sc hp) = Ok []
  ∧ outcome (Endpoints_body sc hp) =
    match fqdnTemplate sc with
    | None => Ok []
    | Some tmpl =>
        match tmpl hp with
        | Ok rendered =>
            Ok (setResourceLabel hp
                  (assemble hp targets
                     (getTTLFromAnnotations (Annotations hp)).1
                     (templateHostnames rendered)))
        | Err err => Err (templateError hp err)
        end
    end.
Proof.
  intros Hctl Hvalid Hhost Hannotation Htargets.
  assert (primaryHostnames sc hp = []) as Hnone.
  { unfold primaryHostnames.
    assert (match VirtualHost_ (Spec hp) with
            | Some virtualHost =>
                if negb (Fqdn virtualHost =? "") then [Fqdn virtualHost] else []
            | None => []
            end = []) as ->.
    { destruct Hhost as [->|(vh & -> & ->)]; done. }
    destruct Hannotation as [->| ->]; [done|].
    by destruct (negb (ignoreHostnameAnnotation sc)). }
  assert (outcome (endpointsFromHttpProxy sc hp) = Ok []) as Hprimary.
  { rewrite (endpointsFromHttpProxy_valid sc hp Hvalid), outcome_assembling.
    by rewrite Htargets, Hnone. }
  split; [done|].
  assert (Endpoints_body sc hp = Endpoints_generate sc hp) as ->.
  { unfold Endpoints_body. by rewrite Hctl, Hvalid. }
  rewrite Endpoints_generate_outcome, Hprimary.
  destruct (fqdnTemplate sc) as [tmpl|]; [|done].
  rewrite orb_true_r.
  destruct (tmpl hp) as [rendered|err] eqn:Hrender.
  - rewrite (endpointsFromTemplate_Ok sc tmpl hp rendered Hrender).
    rewrite emit_bind. unfold outcome at 1. cbn [snd].
    rewrite outcome_assembling, Htargets.
    by destruct (combineFQDNAnnotation sc).
  - by rewrite (endpointsFromTemplate_Err sc tmpl hp err Hrender).
Qed.

Lemma hostless_resource_falls_back_to_template_witness :
  outcome (Endpoints_body (H := Model.sourcePackage)
             (Samples.source Samples.withEnvoy "" (Some Samples.nameTemplate)
                false []) Samples.hostless)
  = Ok [Samples.expected "foo.example.com" "A" ["10.0.0.1"] (-1)%Z "foo";
        Samples.expected "foo.example.com" "CNAME" ["lb.example.com"] (-1)%Z
          "foo"].
Proof.
  destruct (hostless_resource_falls_back_to_template
              (H := Model.sourcePackage)
              (Samples.source Samples.withEnvoy "" (Some Samples.nameTemplate)
                 false [])
              Samples.hostless ["10.0.0.1"; "lb.example.com"]
              eq_refl eq_refl (or_introl eq_refl) (or_intror eq_refl) eq_refl)
    as [_ ->].
  vm_compute. reflexivity.
Defined.
